(** * Agent output parsers of langchain: a shallow embedding

    Verified here:
    - [libs/langchain/langchain/agents/structured_chat/output_parser.py]
      ([StructuredChatOutputParser], [StructuredChatOutputParserWithRetries]);
    - [libs/langchain/langchain/agents/conversational_chat/output_parser.py]
      ([ConvoOutputParser]).

    The parsers turn the raw text of a language model into an
    [AgentAction] or an [AgentFinish], or raise an
    [OutputParserException].  Python strings are sequences of Unicode
    code points; exceptions and the module logger are threaded through a
    small state-and-error monad. *)

From Stdlib Require Import List NArith ZArith Bool Ascii String Lia.
Import ListNotations.

Set Warnings "-register-all".

Local Open Scope N_scope.
Local Open Scope list_scope.

(** ** Python strings *)

(** A [str] is a sequence of code points. *)
Definition char := N.
Definition str := list char.

(** [py "abc"] is the Python literal ["abc"] (for literals in the ASCII
    range, which is all the source uses). *)
Fixpoint py (s : string) : str :=
  match s with
  | EmptyString => []
  | String a s' => N_of_ascii a :: py s'
  end.

Definition str_eqb (a b : str) : bool :=
  if list_eq_dec N.eq_dec a b then true else false.

Definition backtick : char := 96.

(** [s.startswith(p)] *)
Fixpoint startswith (p s : str) : bool :=
  match p, s with
  | [], _ => true
  | _ :: _, [] => false
  | a :: p', b :: s' => (a =? b) && startswith p' s'
  end.

(** [p in s] on two strings: substring test. *)
Fixpoint str_contains (p s : str) : bool :=
  startswith p s ||
  match s with
  | [] => false
  | _ :: s' => str_contains p s'
  end.

(** [str.isspace] on one code point: the characters [str.strip()] removes
    when called without argument. *)
Definition isspace (c : char) : bool :=
  ((9 <=? c) && (c <=? 13)) || ((28 <=? c) && (c <=? 32)) ||
  (c =? 133) || (c =? 160) || (c =? 5760) ||
  ((8192 <=? c) && (c <=? 8202)) || (c =? 8232) || (c =? 8233) ||
  (c =? 8239) || (c =? 8287) || (c =? 12288).

Fixpoint lstrip (s : str) : str :=
  match s with
  | [] => []
  | c :: s' => if isspace c then lstrip s' else s
  end.

Fixpoint rstrip (s : str) : str :=
  match s with
  | [] => []
  | c :: s' =>
      match rstrip s' with
      | [] => if isspace c then [] else [c]
      | r => c :: r
      end
  end.

(** [s.strip()] *)
Definition strip (s : str) : str := rstrip (lstrip s).

(** ** The regular expression of the structured parser

    [re.search(r"```(.*?)```?", text, re.DOTALL)]: the engine tries every
    start position from the left; at a start position it needs three
    backticks, then extends the lazy group one character at a time (any
    character, [re.DOTALL]) until two backticks follow; the third closing
    backtick is optional and taken when present.  The source only reads
    group 1. *)

Definition fence : str := [backtick; backtick; backtick].
Definition fence2 : str := [backtick; backtick].

(** The lazy group and what follows it, from the position just after the
    opening fence: group 1 when the rest of the pattern can match. *)
Fixpoint lazy_group (s : str) : option str :=
  if startswith fence2 s then Some []
  else match s with
       | [] => None
       | c :: s' => option_map (cons c) (lazy_group s')
       end.

(** The match attempt anchored at the head of [s]. *)
Definition match_here (s : str) : option str :=
  if startswith fence s then lazy_group (skipn 3 s) else None.

(** [re.search]: [None] when no position matches, otherwise group 1 of the
    leftmost match. *)
Fixpoint re_search (text : str) : option str :=
  match match_here text with
  | Some g => Some g
  | None =>
      match text with
      | [] => None
      | _ :: rest => re_search rest
      end
  end.

(** ** Python values and exceptions *)

(** The objects [json.loads] builds.  A [float] is kept as the text it was
    read from (the parsers never compute with it); a [dict] is its items in
    insertion order, with distinct keys. *)
Inductive value : Type :=
  | VNone
  | VBool (b : bool)
  | VInt (z : Z)
  | VFloat (lexeme : str)
  | VStr (s : str)
  | VList (l : list value)
  | VDict (d : list (str * value)).

Definition dict := list (str * value).

(** The exceptions the parsers can meet.  [OutputParserException] (of
    [langchain.schema]) is built from its message alone, as at every call
    in the parsers; [raise X from e] records [e] as the cause of [X]. *)
Inductive exn : Type :=
  | JSONDecodeError
  | KeyError (k : str)
  | IndexError
  | TypeError
  | AttributeError
  | OutputParserException (msg : str) (cause : option exn).

(** [d[k]] on the items of a dict. *)
Fixpoint dict_get (k : str) (d : dict) : option value :=
  match d with
  | [] => None
  | (k', v) :: d' => if str_eqb k k' then Some v else dict_get k d'
  end.

(** [d[k] = v]: a present key keeps its place and takes the new value, a
    new key goes last. *)
Fixpoint dict_set (k : str) (v : value) (d : dict) : dict :=
  match d with
  | [] => [(k, v)]
  | (k', v') :: d' =>
      if str_eqb k k' then (k', v) :: d' else (k', v') :: dict_set k v d'
  end.

(** [dict(pairs)] *)
Definition dict_of_pairs (pairs : list (str * value)) : dict :=
  fold_left (fun d kv => dict_set (fst kv) (snd kv) d) pairs [].

(** ** [json.loads(s, strict=False)]

    The decoder of the Python standard library ([json.decoder],
    [json.scanner]), on which the structured parser relies.  The limits of
    the interpreter (recursion depth, the number of digits [int] accepts)
    are left out: the decoder is modelled on unbounded resources. *)

Definition ch (a : ascii) : char := N_of_ascii a.
Arguments ch a%_char.

Definition dquote : char := 34.

(** [js] writes a text with apostrophes standing for double quotes:
    [js "{'a': 1}"] is the seven characters of the JSON text. *)
Definition js (s : string) : str :=
  map (fun c => if c =? 39 then dquote else c) (py s).

(** [WHITESPACE]: space, tab, line feed, carriage return. *)
Definition json_ws (c : char) : bool :=
  (c =? 32) || (c =? 9) || (c =? 10) || (c =? 13).

Fixpoint skip_ws (s : str) : str :=
  match s with
  | [] => []
  | c :: s' => if json_ws c then skip_ws s' else s
  end.

Definition isdigit (c : char) : bool := (48 <=? c) && (c <=? 57).

Definition hexval (c : char) : option N :=
  if (48 <=? c) && (c <=? 57) then Some (c - 48)
  else if (97 <=? c) && (c <=? 102) then Some (c - 87)
  else if (65 <=? c) && (c <=? 70) then Some (c - 55)
  else None.

(** [_decode_uXXXX]: exactly four hexadecimal digits. *)
Definition decode_uXXXX (h1 h2 h3 h4 : char) : option N :=
  match hexval h1, hexval h2, hexval h3, hexval h4 with
  | Some a, Some b, Some c, Some d => Some (((a * 16 + b) * 16 + c) * 16 + d)
  | _, _, _, _ => None
  end.

(** [BACKSLASH]: the one-character escapes. *)
Definition backslash (esc : char) : option char :=
  if esc =? dquote then Some (dquote)
  else if esc =? ch "\" then Some (ch "\")
  else if esc =? ch "/" then Some (ch "/")
  else if esc =? ch "b" then Some 8
  else if esc =? ch "f" then Some 12
  else if esc =? ch "n" then Some 10
  else if esc =? ch "r" then Some 13
  else if esc =? ch "t" then Some 9
  else None.

Definition cons_fst {A} (c : char) (r : option (str * A)) : option (str * A) :=
  match r with
  | Some (k, rest) => Some (c :: k, rest)
  | None => None
  end.

(** [scanstring(s, end, strict=False)], from just after the opening quote:
    the decoded string and the input after the closing quote.  With
    [strict=False] control characters are taken literally. *)
Fixpoint scanstring (s : str) : option (str * str) :=
  match s with
  | [] => None
  | c :: s1 =>
      if c =? dquote then Some ([], s1)
      else if c =? ch "\" then
        match s1 with
        | [] => None
        | esc :: s2 =>
            if esc =? ch "u" then
              match s2 with
              | h1 :: h2 :: h3 :: h4 :: s3 =>
                  match decode_uXXXX h1 h2 h3 h4 with
                  | None => None
                  | Some uni =>
                      match s3 with
                      | b :: u :: s4 =>
                          if (55296 <=? uni) && (uni <=? 56319) &&
                             (b =? ch "\") && (u =? ch "u") then
                            match s4 with
                            | g1 :: g2 :: g3 :: g4 :: s5 =>
                                match decode_uXXXX g1 g2 g3 g4 with
                                | None => None
                                | Some uni2 =>
                                    if (56320 <=? uni2) && (uni2 <=? 57343) then
                                      cons_fst
                                        (65536 + ((uni - 55296) * 1024 + (uni2 - 56320)))
                                        (scanstring s5)
                                    else cons_fst uni (scanstring s3)
                                end
                            | _ => None
                            end
                          else cons_fst uni (scanstring s3)
                      | _ => cons_fst uni (scanstring s3)
                      end
                  end
              | _ => None
              end
            else
              match backslash esc with
              | Some c' => cons_fst c' (scanstring s2)
              | None => None
              end
        end
      else cons_fst c (scanstring s1)
  end.

(** The longest run of decimal digits at the head of [s], and the rest. *)
Fixpoint span_digits (s : str) : str * str :=
  match s with
  | [] => ([], [])
  | c :: s' =>
      if isdigit c then let (ds, r) := span_digits s' in (c :: ds, r)
      else ([], s)
  end.

(** [int(digits)] *)
Definition int_of_digits (ds : str) : Z :=
  fold_left (fun acc d => (10 * acc + Z.of_N (d - 48))%Z) ds 0%Z.

(** The digits of the integer part of [NUMBER_RE]: either a single zero or
    a nonzero digit and further digits. *)
Definition match_digits (s : str) : option (str * str) :=
  match s with
  | [] => None
  | d :: s1 =>
      if d =? ch "0" then Some ([d], s1)
      else if isdigit d then
        let (ds, r) := span_digits s1 in Some (d :: ds, r)
      else None
  end.

(** The integer part of [NUMBER_RE], an optional minus sign and the
    digits: whether it is negative, its digits and the rest. *)
Definition match_integer (s : str) : option (bool * str * str) :=
  match s with
  | [] => None
  | c :: s1 =>
      if c =? ch "-" then
        match match_digits s1 with
        | Some (ds, r) => Some (true, ds, r)
        | None => None
        end
      else
        match match_digits s with
        | Some (ds, r) => Some (false, ds, r)
        | None => None
        end
  end.

(** The optional fraction (a dot and at least one digit): its text, empty
    when absent, and the rest. *)
Definition match_frac (s : str) : str * str :=
  match s with
  | c :: s1 =>
      if c =? ch "." then
        match span_digits s1 with
        | ([], _) => ([], s)
        | (ds, r) => (c :: ds, r)
        end
      else ([], s)
  | [] => ([], s)
  end.

(** An optional sign. *)
Definition match_sign (s : str) : str * str :=
  match s with
  | g :: r => if (g =? ch "-") || (g =? ch "+") then ([g], r) else ([], s)
  | [] => ([], s)
  end.

(** The optional exponent ([e] or [E], an optional sign, at least one
    digit). *)
Definition match_exp (s : str) : str * str :=
  match s with
  | e :: s1 =>
      if (e =? ch "e") || (e =? ch "E") then
        let (sign, s2) := match_sign s1 in
        match span_digits s2 with
        | ([], _) => ([], s)
        | (ds, r) => (e :: sign ++ ds, r)
        end
      else ([], s)
  | [] => ([], s)
  end.

(** [NUMBER_RE.match] and the conversion of the scanner: an [int] when
    there is neither fraction nor exponent, a [float] otherwise. *)
Definition match_number (s : str) : option (value * str) :=
  match match_integer s with
  | None => None
  | Some (neg, ds, r) =>
      let (frac, r1) := match_frac r in
      let (exp, r2) := match_exp r1 in
      match frac, exp with
      | [], [] =>
          Some (VInt (if neg then - int_of_digits ds else int_of_digits ds)%Z, r2)
      | _, _ =>
          Some (VFloat ((if neg then [ch "-"] else []) ++ ds ++ frac ++ exp), r2)
      end
  end.

(** What a scanning function returns: a result with the rest of the input,
    a decoding failure ([JSONDecodeError], or the [StopIteration] that the
    decoder turns into one), or no more recursion budget. *)
Inductive outcome (A : Type) : Type :=
  | Done (a : A) (rest : str)
  | Fail
  | Fuel.
Arguments Done {A} a rest.
Arguments Fail {A}.
Arguments Fuel {A}.

(** [scan_once] of [json.scanner] with [JSONObject] and [JSONArray] of
    [json.decoder].  [JSONObject] and [JSONArray] start just after the
    opening bracket; [object_members] starts just after the opening quote of
    a key and [array_elements] at an element, each with the items read so
    far. *)
Fixpoint scan_once (fuel : nat) (s : str) {struct fuel} : outcome value :=
  match fuel with
  | O => Fuel
  | S f =>
      match s with
      | [] => Fail
      | c :: s1 =>
          if c =? dquote then
            match scanstring s1 with
            | Some (k, r) => Done (VStr k) r
            | None => Fail
            end
          else if c =? ch "{" then JSONObject f s1
          else if c =? ch "[" then JSONArray f s1
          else if (c =? ch "n") && startswith (py "null") s then
            Done VNone (skipn 4 s)
          else if (c =? ch "t") && startswith (py "true") s then
            Done (VBool true) (skipn 4 s)
          else if (c =? ch "f") && startswith (py "false") s then
            Done (VBool false) (skipn 5 s)
          else
            match match_number s with
            | Some (v, r) => Done v r
            | None =>
                if (c =? ch "N") && startswith (py "NaN") s then
                  Done (VFloat (py "NaN")) (skipn 3 s)
                else if (c =? ch "I") && startswith (py "Infinity") s then
                  Done (VFloat (py "Infinity")) (skipn 8 s)
                else if (c =? ch "-") && startswith (py "-Infinity") s then
                  Done (VFloat (py "-Infinity")) (skipn 9 s)
                else Fail
            end
      end
  end

with JSONObject (fuel : nat) (s : str) {struct fuel} : outcome value :=
  match fuel with
  | O => Fuel
  | S f =>
      match skip_ws s with
      | [] => Fail
      | c :: s1 =>
          if c =? ch "}" then Done (VDict []) s1
          else if c =? dquote then object_members f s1 []
          else Fail
      end
  end

with object_members (fuel : nat) (s : str) (pairs : list (str * value))
       {struct fuel} : outcome value :=
  match fuel with
  | O => Fuel
  | S f =>
      match scanstring s with
      | None => Fail
      | Some (key, s1) =>
          match skip_ws s1 with
          | [] => Fail
          | c :: s2 =>
              if c =? ch ":" then
                match scan_once f (skip_ws s2) with
                | Fuel => Fuel
                | Fail => Fail
                | Done v s3 =>
                    match skip_ws s3 with
                    | [] => Fail
                    | c' :: s4 =>
                        if c' =? ch "}" then
                          Done (VDict (dict_of_pairs (pairs ++ [(key, v)]))) s4
                        else if c' =? ch "," then
                          match skip_ws s4 with
                          | [] => Fail
                          | q :: s5 =>
                              if q =? dquote then
                                object_members f s5 (pairs ++ [(key, v)])
                              else Fail
                          end
                        else Fail
                    end
                end
              else Fail
          end
      end
  end

with JSONArray (fuel : nat) (s : str) {struct fuel} : outcome value :=
  match fuel with
  | O => Fuel
  | S f =>
      match skip_ws s with
      | [] => Fail
      | c :: s1 =>
          if c =? ch "]" then Done (VList []) s1
          else array_elements f (skip_ws s) []
      end
  end

with array_elements (fuel : nat) (s : str) (values : list value)
       {struct fuel} : outcome value :=
  match fuel with
  | O => Fuel
  | S f =>
      match scan_once f s with
      | Fuel => Fuel
      | Fail => Fail
      | Done v s1 =>
          match skip_ws s1 with
          | [] => Fail
          | c :: s2 =>
              if c =? ch "]" then Done (VList (values ++ [v])) s2
              else if c =? ch "," then array_elements f (skip_ws s2) (values ++ [v])
              else Fail
          end
      end
  end.

(** [json.loads(s, strict=False)]: a leading byte-order mark is refused,
    white space may surround the one value, anything else after it is
    ["Extra data"].  Every call of the scanner consumes a character and
    the budget is three per character, which is never used up (lemma
    [scan_once_budget]). *)
Definition json_loads (s : str) : exn + value :=
  if startswith [65279] s then inl JSONDecodeError
  else
    match scan_once (3 * List.length s + 1) (skip_ws s) with
    | Done v rest =>
        match skip_ws rest with
        | [] => inr v
        | _ :: _ => inl JSONDecodeError
        end
    | Fail => inl JSONDecodeError
    | Fuel => inl JSONDecodeError
    end.

(** ** Effects: exceptions and the module logger

    A computation takes the records the logger holds and returns a value
    or an exception together with the records it leaves.  Records written
    before an exception stay written. *)

Inductive log_record : Type :=
  | Warning (fmt : string) (arg : value).

Definition M (A : Type) : Type :=
  list log_record -> (exn + A) * list log_record.

Definition ret {A} (a : A) : M A := fun l => (inr a, l).

Definition raise {A} (e : exn) : M A := fun l => (inl e, l).

Definition bind {A B} (m : M A) (k : A -> M B) : M B :=
  fun l =>
    match m l with
    | (inr a, l') => k a l'
    | (inl e, l') => (inl e, l')
    end.

(** [try: body / except Exception as e: handler] *)
Definition try_except {A} (body : M A) (handler : exn -> M A) : M A :=
  fun l =>
    match body l with
    | (inr a, l') => (inr a, l')
    | (inl e, l') => handler e l'
    end.

(** [logger.warning(fmt, arg)] *)
Definition logger_warning (fmt : string) (arg : value) : M unit :=
  fun l => (inr tt, l ++ [Warning fmt arg]).

(** A pure call that returns or raises. *)
Definition lift {A} (r : exn + A) : M A := fun l => (r, l).

Notation "x <- m ;; k" := (bind m (fun x => k))
  (at level 61, m at next level, right associativity).
Notation "m ;;; k" := (bind m (fun _ => k))
  (at level 61, right associativity).

(** ** The Python operations the parsers use *)

(** [obj[key]] with a string key. *)
Definition getitem (obj : value) (key : str) : M value :=
  match obj with
  | VDict d =>
      match dict_get key d with
      | Some v => ret v
      | None => raise (KeyError key)
      end
  | _ => raise TypeError
  end.

(** [obj[0]] on a list. *)
Definition getitem0 (l : list value) : M value :=
  match l with
  | v :: _ => ret v
  | [] => raise IndexError
  end.

(** [obj.get(key, default)] *)
Definition get (obj : value) (key : str) (default : value) : M value :=
  match obj with
  | VDict d =>
      match dict_get key d with
      | Some v => ret v
      | None => ret default
      end
  | _ => raise AttributeError
  end.

(** [v == s] for a string literal [s]: only an equal [str] is equal. *)
Definition eq_str (v : value) (s : str) : bool :=
  match v with
  | VStr s' => str_eqb s' s
  | _ => false
  end.

(** [key in obj] for a string [key]: a key of a dict, an element of a list,
    a substring of a string; other objects are not containers. *)
Definition contains (key : str) (obj : value) : M bool :=
  match obj with
  | VDict d => ret (match dict_get key d with Some _ => true | None => false end)
  | VList l => ret (existsb (fun v => eq_str v key) l)
  | VStr s => ret (str_contains key s)
  | _ => raise TypeError
  end.

(** ** Decisions *)

(** Modelled from the spec: the declarations of [AgentAction] and
    [AgentFinish] of [langchain.schema], which the parsers import.  The spec
    gives Action the fields toolName, toolInput and rawLog and Finish the
    fields output and rawLog; the constructors take their arguments in the
    order of the calls in the parsers, [AgentAction(tool, tool_input, log)]
    and [AgentFinish(return_values, log)], and store them as they are. *)
Inductive decision : Type :=
  | AgentAction (tool : value) (tool_input : value) (log : str)
  | AgentFinish (return_values : dict) (log : str).

Definition rawLog (d : decision) : str :=
  match d with
  | AgentAction _ _ log => log
  | AgentFinish _ log => log
  end.

(** [{"output": v}] *)
Definition output_dict (v : value) : dict := [(py "output", v)].

(** The message [f"Could not parse LLM output: {text}"]. *)
Definition could_not_parse (text : str) : str :=
  py "Could not parse LLM output: " ++ text.

(** The text interpolated in such a message: what follows the fixed
    prefix. *)
Definition attached_text (e : exn) : option str :=
  match e with
  | OutputParserException msg _ =>
      if startswith (py "Could not parse LLM output: ") msg
      then Some (skipn 28 msg) else None
  | _ => None
  end.

(** The interface [AgentOutputParser]: an object with a [parse] method. *)
Module AgentOutputParser.
Record t : Type := { parse : str -> M decision }.
End AgentOutputParser.

(** ** [structured_chat/output_parser.py] *)

Module StructuredChatOutputParser.

(** Lines 31 to 41 of [parse]: from the decoded response to the
    decision. *)
Definition parse_response (response : value) (text : str) : M decision :=
  response <-
    match response with
    | VList l =>
        logger_warning "Got multiple action responses: %s" response ;;;
        getitem0 l
    | _ => ret response
    end ;;
  action <- getitem response (py "action") ;;
  if eq_str action (py "Final Answer") then
    action_input <- getitem response (py "action_input") ;;
    ret (AgentFinish (output_dict action_input) text)
  else
    action <- getitem response (py "action") ;;
    action_input <- get response (py "action_input") (VDict []) ;;
    ret (AgentAction action action_input text).

(** Line 30 onwards: group 1 of the match is stripped and decoded. *)
Definition parse_block (group1 text : str) : M decision :=
  response <- lift (json_loads (strip group1)) ;;
  parse_response response text.

(** The handler of the [except] clause. *)
Definition handler (text : str) (e : exn) : M decision :=
  raise (OutputParserException (could_not_parse text) (Some e)).

Definition parse (text : str) : M decision :=
  try_except
    (match re_search text with
     | None => ret (AgentFinish (output_dict (VStr text)) text)
     | Some group1 => parse_block group1 text
     end)
    (handler text).

Definition self : AgentOutputParser.t := {| AgentOutputParser.parse := parse |}.

End StructuredChatOutputParser.

Module StructuredChatOutputParserWithRetries.

(** The fields of the wrapper; [base_parser] defaults to a
    [StructuredChatOutputParser], [output_fixing_parser] to [None]. *)
Record t : Type := {
  base_parser : AgentOutputParser.t;
  output_fixing_parser : option AgentOutputParser.t
}.

Definition default : t :=
  {| base_parser := StructuredChatOutputParser.self;
     output_fixing_parser := None |}.

Definition parse (self : t) (text : str) : M decision :=
  try_except
    (match output_fixing_parser self with
     | Some fixing => AgentOutputParser.parse fixing text
     | None => AgentOutputParser.parse (base_parser self) text
     end)
    (fun e => raise (OutputParserException (could_not_parse text) (Some e))).

End StructuredChatOutputParserWithRetries.

(** ** [conversational_chat/output_parser.py] *)

Module ConvoOutputParser.
Section Parse.

(** [parse_json_markdown] of [langchain.output_parsers.json] is imported
    by the parser; any function from the text to a value or an exception
    can stand for it. *)
Variable parse_json_markdown : str -> M value.

Definition parse (text : str) : M decision :=
  try_except
    (response <- parse_json_markdown text ;;
     has_action <- contains (py "action") response ;;
     missing <-
       (if negb has_action then ret true
        else has_input <- contains (py "action_input") response ;;
             ret (negb has_input)) ;;
     if (missing : bool) then
       raise (OutputParserException
                (py "Missing 'action' or 'action_input' in LLM output: " ++ text)
                None)
     else
       action <- getitem response (py "action") ;;
       action_input <- getitem response (py "action_input") ;;
       if eq_str action (py "Final Answer") then
         ret (AgentFinish (output_dict action_input) text)
       else ret (AgentAction action action_input text))
    (fun e => raise (OutputParserException (could_not_parse text) (Some e))).

Definition self : AgentOutputParser.t := {| AgentOutputParser.parse := parse |}.

End Parse.
End ConvoOutputParser.

(** ** Definitions used in the statements *)

(** No backtick occurs in [s]. *)
Definition no_backtick (s : str) : bool :=
  forallb (fun c => negb (c =? backtick)) s.

(** A computation is uniform when its result does not depend on the
    records it starts from, and it only appends records. *)
Definition uniform {A} (m : M A) : Prop :=
  forall l, m l = (fst (m []), l ++ snd (m [])).

(** The record of the examples, [{"action": "Search", "action_input":
    "term"}]. *)
Definition search_record : str :=
  js "{'action': 'Search', 'action_input': 'term'}".

Module Retries := StructuredChatOutputParserWithRetries.

(** The length of the chain of causes. *)
Fixpoint cause_depth (e : exn) : nat :=
  match e with
  | OutputParserException _ (Some c) => S (cause_depth c)
  | _ => O
  end.

(** A parser object whose [parse] raises [e] on every text. *)
Definition always_raises (e : exn) : AgentOutputParser.t :=
  {| AgentOutputParser.parse := fun _ => raise e |}.

(** The exception raised at line 33 of the strict parser. *)
Definition missing_keys (text : str) : exn :=
  OutputParserException
    (py "Missing 'action' or 'action_input' in LLM output: " ++ text) None.

(** ** Which responses the lenient parser accepts *)

(** The record the lenient parser goes on with: the response itself, or
    the first element of a sequence. *)
Definition first_record (response : value) : option value :=
  match response with
  | VList [] => None
  | VList (r :: _) => Some r
  | r => Some r
  end.

(** A record the lenient parser turns into a decision: it has the key
    [action], and the key [action_input] as well when the action is
    ["Final Answer"]. *)
Definition accepted_record (r : value) : bool :=
  match r with
  | VDict d =>
      match dict_get (py "action") d with
      | Some action =>
          if eq_str action (py "Final Answer") then
            match dict_get (py "action_input") d with
            | Some _ => true
            | None => false
            end
          else true
      | None => false
      end
  | _ => false
  end.

Definition accepted (response : value) : bool :=
  match first_record response with
  | Some r => accepted_record r
  | None => false
  end.


(** ** [StructuredChatOutputParserWithRetries.from_llm] *)

Module RetriesFromLLM.
Section FromLLM.

(** The language model and [OutputFixingParser.from_llm] of
    [langchain.output_parsers] are not part of these files: any type and
    any function building a parser object from a model and a parser can
    stand for them. *)
Variable BaseLanguageModel : Type.
Variable OutputFixingParser_from_llm :
  BaseLanguageModel -> AgentOutputParser.t -> AgentOutputParser.t.

(** [from_llm(llm=None, base_parser=None)].  With a model, the wrapper is
    built from the corrector alone (around [base_parser], or around a new
    [StructuredChatOutputParser]) and its own [base_parser] field takes its
    default value. *)
Definition from_llm (llm : option BaseLanguageModel)
    (base_parser : option AgentOutputParser.t) :
    StructuredChatOutputParserWithRetries.t :=
  match llm with
  | Some llm =>
      let base_parser :=
        match base_parser with
        | Some b => b
        | None => StructuredChatOutputParser.self
        end in
      let output_fixing_parser := OutputFixingParser_from_llm llm base_parser in
      {| StructuredChatOutputParserWithRetries.base_parser :=
           StructuredChatOutputParser.self;
         StructuredChatOutputParserWithRetries.output_fixing_parser :=
           Some output_fixing_parser |}
  | None =>
      match base_parser with
      | Some b =>
          {| StructuredChatOutputParserWithRetries.base_parser := b;
             StructuredChatOutputParserWithRetries.output_fixing_parser := None |}
      | None => StructuredChatOutputParserWithRetries.default
      end
  end.

(** The parser object a wrapper built by [from_llm] delegates to. *)
Definition delegate (llm : option BaseLanguageModel)
    (base_parser : option AgentOutputParser.t) : AgentOutputParser.t :=
  match llm, base_parser with
  | Some llm, Some b => OutputFixingParser_from_llm llm b
  | Some llm, None => OutputFixingParser_from_llm llm StructuredChatOutputParser.self
  | None, Some b => b
  | None, None => StructuredChatOutputParser.self
  end.

End FromLLM.
End RetriesFromLLM.


(** ** More of Python *)

(** The exceptions of the other modules: a [ValueError] with its message,
    or one of the exceptions above. *)
Inductive exception : Type :=
  | ValueError (msg : str)
  | Exn (e : exn).

(** [str(n)] for a natural number: its decimal digits. *)
Fixpoint digits_of_uint (u : Decimal.uint) : str :=
  match u with
  | Decimal.Nil => []
  | Decimal.D0 u' => 48 :: digits_of_uint u'
  | Decimal.D1 u' => 49 :: digits_of_uint u'
  | Decimal.D2 u' => 50 :: digits_of_uint u'
  | Decimal.D3 u' => 51 :: digits_of_uint u'
  | Decimal.D4 u' => 52 :: digits_of_uint u'
  | Decimal.D5 u' => 53 :: digits_of_uint u'
  | Decimal.D6 u' => 54 :: digits_of_uint u'
  | Decimal.D7 u' => 55 :: digits_of_uint u'
  | Decimal.D8 u' => 56 :: digits_of_uint u'
  | Decimal.D9 u' => 57 :: digits_of_uint u'
  end.

Definition str_of_nat (n : nat) : str := digits_of_uint (Nat.to_uint n).

(** [s.split("\n\n")]: the text before the first blank line, and the
    pieces after it.  The separators are found from the left and do not
    overlap. *)
Fixpoint split_blank_lines (s : str) : str * list str :=
  match s with
  | [] => ([], [])
  | c :: s1 =>
      match s1 with
      | [] => ([c], [])
      | c' :: s2 =>
          if (c =? 10) && (c' =? 10) then
            ([], let (p, ps) := split_blank_lines s2 in p :: ps)
          else
            let (p, ps) := split_blank_lines s1 in (c :: p, ps)
      end
  end.

Definition split_paragraphs (s : str) : list str :=
  let (p, ps) := split_blank_lines s in p :: ps.

(** ["\n\n".join(parts)] *)
Fixpoint join_paragraphs (parts : list str) : str :=
  match parts with
  | [] => []
  | [p] => p
  | p :: ps => p ++ [10; 10] ++ join_paragraphs ps
  end.

(** The lazy group of a pattern that ends with [closer]: the shortest text
    after which [closer] follows. *)
Fixpoint lazy_until (closer s : str) : option str :=
  if startswith closer s then Some []
  else match s with
       | [] => None
       | c :: s' => option_map (cons c) (lazy_until closer s')
       end.

(** [re.search(opener + r"(.*?)```", text, re.DOTALL)] for a literal
    [opener]: group 1 of the leftmost match. *)
Definition match_block_here (opener s : str) : option str :=
  if startswith opener s
  then lazy_until fence (skipn (List.length opener) s)
  else None.

Fixpoint search_block (opener text : str) : option str :=
  match match_block_here opener text with
  | Some g => Some g
  | None =>
      match text with
      | [] => None
      | _ :: rest => search_block opener rest
      end
  end.

(** ** [docstore/in_memory.py] *)

Module InMemoryDocstore.
Section Docstore.

(** [Document] of [langchain.docstore.document] is stored and returned as
    it is: any type can stand for it. *)
Variable Document : Type.

(** The printed form of the set of overlapping ids in the error message of
    [add].  Python does not fix the order in which a set prints; the set is
    handed over as the list of its elements in the order of [texts]. *)
Variable repr_ids : list str -> str.

(** A [Dict[str, Document]]: its items in insertion order. *)
Definition items := list (str * Document).

(** [d[k]], and [k in d] *)
Fixpoint lookup (k : str) (d : items) : option Document :=
  match d with
  | [] => None
  | (k', v) :: d' => if str_eqb k k' then Some v else lookup k d'
  end.

(** [d[k] = v] *)
Fixpoint update (k : str) (v : Document) (d : items) : items :=
  match d with
  | [] => [(k, v)]
  | (k', v') :: d' =>
      if str_eqb k k' then (k', v) :: d' else (k', v') :: update k v d'
  end.

(** The dict display [{**a, **b}]. *)
Definition merge (a b : items) : items :=
  fold_left (fun d kv => update (fst kv) (snd kv) d) b a.

Record t : Type := { _dict : items }.

(** [__init__(self, _dict=None)] *)
Definition init (d : option items) : t :=
  {| _dict := match d with Some d => d | None => [] end |}.

(** [set(texts).intersection(self._dict)] *)
Definition overlapping (self : t) (texts : items) : list str :=
  filter (fun k => match lookup k (_dict self) with Some _ => true | None => false end)
         (map fst texts).

(** [add(self, texts)]: the docstore after the call, or the error. *)
Definition add (self : t) (texts : items) : exception + t :=
  match overlapping self texts with
  | _ :: _ as ids =>
      inl (ValueError
             (py "Tried to add ids that already exist: " ++ repr_ids ids))
  | [] => inr {| _dict := merge (_dict self) texts |}
  end.

(** [search(self, search)]: the document, or the message. *)
Definition search (self : t) (search : str) : str + Document :=
  match lookup search (_dict self) with
  | None => inl (py "ID " ++ search ++ py " not found.")
  | Some doc => inr doc
  end.

End Docstore.
End InMemoryDocstore.

(** ** [agents/react/base.py]: the docstore explorer *)

Module DocstoreExplorer.
Section Explorer.

(** A [Document] is read through its [page_content]; [str.lower] follows
    the Unicode tables and is taken as it comes. *)
Variable Document : Type.
Variable page_content : Document -> str.
Variable lower : str -> str.

(** The attributes of an explorer; [docstore] stands for the [search]
    method of the docstore it was built on. *)
Record t : Type := {
  docstore : str -> str + Document;
  document : option Document;
  lookup_str : str;
  lookup_index : nat
}.

(** [__init__(self, docstore)] *)
Definition init (docstore : str -> str + Document) : t :=
  {| docstore := docstore; document := None;
     lookup_str := []; lookup_index := 0 |}.

(** The property [_paragraphs]. *)
Definition _paragraphs (self : t) : exception + list str :=
  match document self with
  | None => inl (ValueError (py "Cannot get paragraphs without a document"))
  | Some doc => inr (split_paragraphs (page_content doc))
  end.

(** The property [_summary]: [self._paragraphs[0]]. *)
Definition _summary (self : t) : exception + str :=
  match _paragraphs self with
  | inl e => inl e
  | inr [] => inl (Exn IndexError)
  | inr (p :: _) => inr p
  end.

(** [search(self, term)]: what it returns or raises, and the explorer
    after the call. *)
Definition search (self : t) (term : str) : (exception + str) * t :=
  match docstore self term with
  | inr result =>
      let self := {| docstore := docstore self; document := Some result;
                     lookup_str := lookup_str self;
                     lookup_index := lookup_index self |} in
      (_summary self, self)
  | inl result =>
      let self := {| docstore := docstore self; document := None;
                     lookup_str := lookup_str self;
                     lookup_index := lookup_index self |} in
      (inr result, self)
  end.

(** [lookup(self, term)] *)
Definition lookup (self : t) (term : str) : (exception + str) * t :=
  match document self with
  | None =>
      (inl (ValueError (py "Cannot lookup without a successful search first")),
       self)
  | Some _ =>
      let self :=
        if negb (str_eqb (lower term) (lookup_str self)) then
          {| docstore := docstore self; document := document self;
             lookup_str := lower term; lookup_index := 0 |}
        else
          {| docstore := docstore self; document := document self;
             lookup_str := lookup_str self;
             lookup_index := lookup_index self + 1 |} in
      match _paragraphs self with
      | inl e => (inl e, self)
      | inr paragraphs =>
          let lookups :=
            filter (fun p => str_contains (lookup_str self) (lower p))
                   paragraphs in
          match lookups with
          | [] => (inr (py "No Results"), self)
          | _ :: _ =>
              if (List.length lookups <=? lookup_index self)%nat then
                (inr (py "No More Results"), self)
              else
                let result_prefix :=
                  py "(Result " ++ str_of_nat (lookup_index self + 1) ++
                  py "/" ++ str_of_nat (List.length lookups) ++ py ")" in
                match nth_error lookups (lookup_index self) with
                | Some p => (inr (result_prefix ++ py " " ++ p), self)
                | None => (inl (Exn IndexError), self)
                end
          end
      end
  end.

End Explorer.
End DocstoreExplorer.


(** ** [chains/api/openapi/requests_chain.py] *)

Module APIRequesterOutputParser.
Section Parser.

(** [json.dumps] of the standard library, with its default arguments. *)
Variable json_dumps : value -> str.

(** [_load_json_block(self, serialized_block)]: only a [JSONDecodeError]
    is caught. *)
Definition _load_json_block (serialized_block : str) : exn + str :=
  match json_loads serialized_block with
  | inr v => inr (json_dumps v)
  | inl JSONDecodeError => inr (py "ERROR serializing request.")
  | inl e => inl e
  end.

(** [parse(self, llm_output)] *)
Definition parse (llm_output : str) : exn + str :=
  match search_block (fence ++ py "json") llm_output with
  | Some group1 => _load_json_block (strip group1)
  | None =>
      match search_block (fence ++ py "text") llm_output with
      | Some group1 => inr (py "MESSAGE: " ++ strip group1)
      | None => inr (py "ERROR making request")
      end
  end.

End Parser.
End APIRequesterOutputParser.

(** ** [agents/react/base.py]: the validation of the tools *)

Module ReActAgents.
Section ValidateTools.

(** A tool is read through its [name].  [validate_tools_single_input] (of
    [langchain.agents.utils]) and [Agent._validate_tools] (the method the
    docstore agent reaches through [super()]) are not part of the file: any
    functions that return or raise can stand for them; both receive the
    class the method was called on.  So do the printed forms of the tools
    and of the set of names in the messages. *)
Variable BaseTool : Type.
Variable name : BaseTool -> str.
Variable validate_tools_single_input : str -> list BaseTool -> exception + unit.
Variable Agent_validate_tools : str -> list BaseTool -> exception + unit.
Variable repr_tools : list BaseTool -> str.
Variable repr_names : list str -> str.

(** Equality of two sets of strings given by their elements. *)
Definition set_eqb (a b : list str) : bool :=
  forallb (fun x => existsb (str_eqb x) b) a &&
  forallb (fun x => existsb (str_eqb x) a) b.

(** [ReActDocstoreAgent._validate_tools(cls, tools)], [cls] being given by
    its name. *)
Definition ReActDocstoreAgent_validate_tools (cls : str)
    (tools : list BaseTool) : exception + unit :=
  match validate_tools_single_input cls tools with
  | inl e => inl e
  | inr _ =>
      match Agent_validate_tools cls tools with
      | inl e => inl e
      | inr _ =>
          if negb (List.length tools =? 2)%nat then
            inl (ValueError
                   (py "Exactly two tools must be specified, but got " ++
                    repr_tools tools))
          else
            let tool_names := map name tools in
            if negb (set_eqb tool_names [py "Lookup"; py "Search"]) then
              inl (ValueError
                     (py "Tool names should be Lookup and Search, got " ++
                      repr_names tool_names))
            else inr tt
      end
  end.

(** [ReActTextWorldAgent._validate_tools(cls, tools)]: its [super()] is the
    docstore agent. *)
Definition ReActTextWorldAgent_validate_tools (cls : str)
    (tools : list BaseTool) : exception + unit :=
  match validate_tools_single_input cls tools with
  | inl e => inl e
  | inr _ =>
      match ReActDocstoreAgent_validate_tools cls tools with
      | inl e => inl e
      | inr _ =>
          if negb (List.length tools =? 1)%nat then
            inl (ValueError
                   (py "Exactly one tool must be specified, but got " ++
                    repr_tools tools))
          else
            let tool_names := map name tools in
            if negb (set_eqb tool_names [py "Play"]) then
              inl (ValueError
                     (py "Tool name should be Play, got " ++
                      repr_names tool_names))
            else inr tt
      end
  end.

End ValidateTools.
End ReActAgents.

(** ** [chains/prompt_selector.py] *)

Module ConditionalPromptSelector.
Section Selector.

Variable BaseLanguageModel : Type.
Variable BasePromptTemplate : Type.

Record t : Type := {
  default_prompt : BasePromptTemplate;
  conditionals : list ((BaseLanguageModel -> bool) * BasePromptTemplate)
}.

(** [next((prompt for condition, prompt in conditionals if condition(llm)),
    default)] *)
Fixpoint next_prompt
    (conditionals : list ((BaseLanguageModel -> bool) * BasePromptTemplate))
    (llm : BaseLanguageModel) (default : BasePromptTemplate) :
    BasePromptTemplate :=
  match conditionals with
  | [] => default
  | (condition, prompt) :: rest =>
      if condition llm then prompt else next_prompt rest llm default
  end.

(** [get_prompt(self, llm)] *)
Definition get_prompt (self : t) (llm : BaseLanguageModel) :
    BasePromptTemplate :=
  next_prompt (conditionals self) llm (default_prompt self).

End Selector.
End ConditionalPromptSelector.


(** ** Runs of the docstore explorer *)

Arguments DocstoreExplorer.docstore {Document} t.
Arguments DocstoreExplorer.document {Document} t.
Arguments DocstoreExplorer.lookup_str {Document} t.
Arguments DocstoreExplorer.lookup_index {Document} t.
Arguments DocstoreExplorer.Build_t {Document} _ _ _ _.
Arguments DocstoreExplorer.init {Document} docstore.
Arguments DocstoreExplorer._paragraphs {Document} page_content self.
Arguments DocstoreExplorer._summary {Document} page_content self.
Arguments DocstoreExplorer.search {Document} page_content self term.
Arguments DocstoreExplorer.lookup {Document} page_content lower self term.

Section ExplorerRuns.

Context {Document : Type}.
Variable page_content : Document -> str.
Variable lower : str -> str.

(** The explorer after [n] calls of [lookup(term)]; what the calls returned
    or raised is dropped. *)
Fixpoint lookups (self : DocstoreExplorer.t Document) (term : str) (n : nat) :
    DocstoreExplorer.t Document :=
  match n with
  | O => self
  | S n' => snd (DocstoreExplorer.lookup page_content lower
                   (lookups self term n') term)
  end.

(** The paragraphs of a document in which the lower-cased term occurs. *)
Definition matching_paragraphs (doc : Document) (term : str) : list str :=
  filter (fun p => str_contains (lower term) (lower p))
         (split_paragraphs (page_content doc)).

(** The answer for position [index] (from 0) among the matches. *)
Definition answer (matches : list str) (index : nat) : str :=
  match matches with
  | [] => py "No Results"
  | _ :: _ =>
      match nth_error matches index with
      | None => py "No More Results"
      | Some p =>
          (py "(Result " ++ str_of_nat (index + 1) ++ py "/" ++
           str_of_nat (List.length matches) ++ py ")") ++ py " " ++ p
      end
  end.

End ExplorerRuns.


(** [str.lower] on ASCII text, for the examples. *)
Definition ascii_lower (s : str) : str :=
  map (fun c => if (65 <=? c) && (c <=? 90) then c + 32 else c) s.

(** A page of three paragraphs, for the examples. *)
Definition paris_page : str :=
  py "Paris is a city." ++ [10; 10] ++ py "It is in France." ++ [10; 10] ++
  py "The tower of PARIS.".


(** ** [embeddings/mosaicml.py] *)

Module MosaicMLInstructorEmbeddings.
Section Embed.

(** [str.lower], and the conversion of a decoded value to text in an
    f-string, are taken as they come. *)
Variable lower : str -> str.
Variable format : value -> str.

(** What [requests.post] does: it raises a [RequestException], given by its
    printed form, or returns a response; [response.json()] then raises the
    [JSONDecodeError] of [requests], given by its printed form, or returns
    the decoded value; [text] is [response.text]. *)
Inductive reply : Type :=
  | RequestException (printed : str)
  | Response (json : str + value) (text : str).

(** The reply to each request, in the order of the requests. *)
Variable post : nat -> reply.

(** What a call does besides returning: the requests sent and the calls
    of [time.sleep]. *)
Inductive event : Type :=
  | Posted
  | Slept.

(** [key in obj] *)
Definition py_in (key : str) (obj : value) : exn + bool :=
  match obj with
  | VDict d => inr (match dict_get key d with Some _ => true | None => false end)
  | VList l => inr (existsb (fun v => eq_str v key) l)
  | VStr s => inr (str_contains key s)
  | _ => inl TypeError
  end.

(** [obj[key]] with a string key. *)
Definition subscript (obj : value) (key : str) : exn + value :=
  match obj with
  | VDict d =>
      match dict_get key d with
      | Some v => inr v
      | None => inl (KeyError key)
      end
  | _ => inl TypeError
  end.

(** [v.lower()] *)
Definition value_lower (v : value) : exn + str :=
  match v with
  | VStr s => inr (lower s)
  | _ => inl AttributeError
  end.

(** [[item["output"] for item in parsed_response]] *)
Fixpoint outputs (items : list value) : exn + list value :=
  match items with
  | [] => inr []
  | item :: rest =>
      match subscript item (py "output") with
      | inl e => inl e
      | inr v =>
          match outputs rest with
          | inl e => inl e
          | inr vs => inr (v :: vs)
          end
      end
  end.

(** Lines 102 to 130 of [_embed]: the embeddings in a response without
    [error]. *)
Definition embeddings_of (parsed_response : value) : exception + value :=
  match parsed_response with
  | VDict d =>
      match
        match dict_get (py "data") d with
        | Some output_item => inr output_item
        | None =>
            match dict_get (py "output") d with
            | Some output_item => inr output_item
            | None =>
                inl (ValueError (py "No key data or output in response: " ++
                                 format parsed_response))
            end
        end
      with
      | inl e => inl e
      | inr output_item =>
          match output_item with
          | VList [] => inl (Exn IndexError)
          | VList (VList _ :: _) => inr output_item
          | _ => inr (VList [output_item])
          end
      end
  | VList items =>
      match items with
      | [] => inl (Exn IndexError)
      | first_item :: _ =>
          match first_item with
          | VList _ => inr parsed_response
          | VDict first_dict =>
              match dict_get (py "output") first_dict with
              | Some _ =>
                  match outputs items with
                  | inl e => inl (Exn e)
                  | inr embeddings => inr (VList embeddings)
                  end
              | None =>
                  inl (ValueError (py "No key data or output in response: " ++
                                   format parsed_response))
              end
          | _ =>
              inl (ValueError (py "Unexpected response format: " ++
                               format parsed_response))
          end
      end
  | _ =>
      inl (ValueError (py "Unexpected response type: " ++
                       format parsed_response))
  end.

(** The body of [_embed(self, input, is_retry)] for the request number [n];
    [again] stands for the call [self._embed(input, is_retry=True)]. *)
Definition embed_body (is_retry : bool) (n : nat)
    (again : nat -> (exception + value) * list event) :
    (exception + value) * list event :=
  match post n with
  | RequestException printed =>
      (inl (ValueError (py "Error raised by inference endpoint: " ++ printed)),
       [Posted])
  | Response (inl printed) text =>
      (inl (ValueError (py "Error raised by inference API: " ++ printed ++
                        py "." ++ [10] ++ py "Response: " ++ text)),
       [Posted])
  | Response (inr parsed_response) _ =>
      match py_in (py "error") parsed_response with
      | inl e => (inl (Exn e), [Posted])
      | inr false => (embeddings_of parsed_response, [Posted])
      | inr true =>
          match
            if negb is_retry then
              match subscript parsed_response (py "error") with
              | inl e => inl e
              | inr error =>
                  match value_lower error with
                  | inl e => inl e
                  | inr lowered =>
                      inr (str_contains (py "rate limit exceeded") lowered)
                  end
              end
            else inr false
          with
          | inl e => (inl (Exn e), [Posted])
          | inr true =>
              let (result, events) := again (S n) in
              (result, Posted :: Slept :: events)
          | inr false =>
              (match subscript parsed_response (py "error") with
               | inl e => inl (Exn e)
               | inr error =>
                   inl (ValueError (py "Error raised by inference API: " ++
                                    format error))
               end,
               [Posted])
          end
      end
  end.

(** [_embed(self, input, is_retry=False)], from the request number [n].
    The call with [is_retry=True] never calls itself again, whatever stands
    for that call. *)
Definition _embed (is_retry : bool) (n : nat) :
    (exception + value) * list event :=
  embed_body is_retry n
    (fun m => embed_body true m (fun _ => (inl (Exn TypeError), []))).

End Embed.
End MosaicMLInstructorEmbeddings.

Import StructuredChatOutputParser.

(** * Properties *)

(** ** The model on examples *)

Example json_loads_record :
  json_loads search_record =
    inr (VDict [(py "action", VStr (py "Search"));
                (py "action_input", VStr (py "term"))]).
Proof. reflexivity. Qed.

Example json_loads_numbers :
  json_loads (py " [0, -12, 2.5e3, -0.5, 1E-2, NaN, -Infinity] ") =
    inr (VList [VInt 0; VInt (-12); VFloat (py "2.5e3"); VFloat (py "-0.5");
                VFloat (py "1E-2"); VFloat (py "NaN"); VFloat (py "-Infinity")]).
Proof. reflexivity. Qed.

Example json_loads_nested :
  json_loads (js "{'a': [true, false, null, [[]], {}], 'b': {'c': ''}}") =
    inr (VDict [(py "a", VList [VBool true; VBool false; VNone;
                                VList [VList []]; VDict []]);
                (py "b", VDict [(py "c", VStr [])])]).
Proof. reflexivity. Qed.

(** Escapes, a surrogate pair, and a raw line feed inside a string, which
    [strict=False] lets through. *)
Example json_loads_escapes :
  json_loads (js "'a\n\u00e9\ud83d\ude00" ++ [10] ++ js "\/'") =
    inr (VStr [97; 10; 233; 128512; 10; 47]).
Proof. reflexivity. Qed.

(** A repeated key keeps its first place and its last value. *)
Example json_loads_repeated_key :
  json_loads (js "{'k': 1, 'j': 2, 'k': 3}") =
    inr (VDict [(py "k", VInt 3); (py "j", VInt 2)]).
Proof. reflexivity. Qed.

Example json_loads_refused :
  json_loads (py "[1,]") = inl JSONDecodeError /\
  json_loads (js "{'a': 1,}") = inl JSONDecodeError /\
  json_loads (js "{'a' 1}") = inl JSONDecodeError /\
  json_loads (py "01") = inl JSONDecodeError /\
  json_loads (py "1.") = inl JSONDecodeError /\
  json_loads (py "{} {}") = inl JSONDecodeError /\
  json_loads (js "'\x'") = inl JSONDecodeError /\
  json_loads (js "'open") = inl JSONDecodeError /\
  json_loads [] = inl JSONDecodeError /\
  json_loads (py "[[[]]") = inl JSONDecodeError.
Proof. repeat split. Qed.

(** The lazy group stops at the first two backticks that follow the
    opening fence. *)
Example re_search_examples :
  re_search (py "say ```a`b``` and ```c```") = Some (py "a`b") /\
  re_search (py "````x``y") = Some (py "`x") /\
  re_search (py "`````") = Some [] /\
  re_search (py "``` open only") = None /\
  re_search (py "`` ``` `` ") = Some (py " ").
Proof. repeat split. Qed.

Example strip_examples :
  strip ([10; 32; 160] ++ py "a b" ++ [9; 13; 8195]) = py "a b" /\
  strip [32; 10] = [] /\
  strip (py "json" ++ [10] ++ py "{}" ++ [10]) = py "json" ++ [10] ++ py "{}".
Proof. repeat split. Qed.

(** ** Strings and the fence search *)

Lemma str_eqb_eq (a b : str) : str_eqb a b = true <-> a = b.
Proof.
  unfold str_eqb. destruct (list_eq_dec N.eq_dec a b); split; congruence.
Qed.

Lemma str_eqb_neq (a b : str) : str_eqb a b = false <-> a <> b.
Proof.
  unfold str_eqb. destruct (list_eq_dec N.eq_dec a b); split; congruence.
Qed.

Lemma lazy_group_other (c : char) (s : str) :
  (c =? backtick) = false ->
  lazy_group (c :: s) = option_map (cons c) (lazy_group s).
Proof.
  intros Hc. cbn [lazy_group fence2 startswith].
  rewrite N.eqb_sym, Hc. reflexivity.
Qed.

Lemma lazy_group_closed (body post : str) :
  no_backtick body = true -> lazy_group (body ++ fence2 ++ post) = Some body.
Proof.
  induction body as [|c body IH]; intros Hb.
  - reflexivity.
  - simpl in Hb. apply andb_prop in Hb as [Hc Hb].
    apply negb_true_iff in Hc.
    rewrite <- app_comm_cons, (lazy_group_other _ _ Hc), (IH Hb). reflexivity.
Qed.

Lemma match_here_fence (s : str) : match_here (fence ++ s) = lazy_group s.
Proof. reflexivity. Qed.

Lemma match_here_other (c : char) (s : str) :
  (c =? backtick) = false -> match_here (c :: s) = None.
Proof.
  intros Hc. unfold match_here. cbn [fence startswith].
  rewrite N.eqb_sym, Hc. reflexivity.
Qed.

Lemma re_search_here (s g : str) : match_here s = Some g -> re_search s = Some g.
Proof. intros H. destruct s; cbn [re_search]; rewrite H; reflexivity. Qed.

Lemma re_search_fenced (pre body post : str) :
  no_backtick pre = true -> no_backtick body = true ->
  re_search (pre ++ fence ++ body ++ fence2 ++ post) = Some body.
Proof.
  intros Hp Hb. induction pre as [|c pre IH].
  - apply re_search_here. cbn [app]. rewrite match_here_fence.
    apply lazy_group_closed, Hb.
  - simpl in Hp. apply andb_prop in Hp as [Hc Hp].
    apply negb_true_iff in Hc.
    cbn [app re_search]. rewrite (match_here_other _ _ Hc). apply (IH Hp).
Qed.

Lemma lazy_group_inv (s g : str) :
  lazy_group s = Some g -> exists post, s = g ++ fence2 ++ post.
Proof.
  revert g. induction s as [|c s IH]; intros g H.
  - discriminate.
  - cbn [lazy_group] in H.
    destruct (startswith fence2 (c :: s)) eqn:E.
    + injection H as <-. cbn [fence2 startswith] in E.
      destruct s as [|c' s]; [rewrite andb_false_r in E; discriminate|].
      rewrite andb_true_r in E. apply andb_prop in E as [E1 E2].
      apply N.eqb_eq in E1, E2. subst. exists s. reflexivity.
    + destruct (lazy_group s) as [g'|] eqn:G; [|discriminate].
      injection H as <-. destruct (IH _ eq_refl) as [post ->].
      exists post. reflexivity.
Qed.

Lemma match_here_inv (s g : str) :
  match_here s = Some g -> exists post, s = fence ++ g ++ fence2 ++ post.
Proof.
  unfold match_here. destruct (startswith fence s) eqn:E; [|discriminate].
  intros H. destruct s as [|a [|b [|c s]]]; cbn [fence startswith] in E;
    rewrite ?andb_false_r in E; try discriminate.
  rewrite andb_true_r in E.
  apply andb_prop in E as [E1 E]. apply andb_prop in E as [E2 E3].
  apply N.eqb_eq in E1, E2, E3. subst.
  cbn [skipn] in H. destruct (lazy_group_inv _ _ H) as [post ->].
  exists post. reflexivity.
Qed.

(** A successful search exhibits an opening fence, the group and two
    closing backticks. *)
Lemma re_search_inv (text g : str) :
  re_search text = Some g ->
  exists pre post, text = pre ++ fence ++ g ++ fence2 ++ post.
Proof.
  induction text as [|c text IH]; cbn [re_search]; intros H.
  - destruct (match_here []) eqn:E; [|discriminate]. discriminate.
  - destruct (match_here (c :: text)) as [g'|] eqn:E.
    + injection H as ->. destruct (match_here_inv _ _ E) as [post Hp].
      exists [], post. exact Hp.
    + destruct (IH H) as (pre & post & ->). exists (c :: pre), post. reflexivity.
Qed.

(** ** The decoder never exhausts its budget *)

Lemma skip_ws_length (s : str) : (List.length (skip_ws s) <= List.length s)%nat.
Proof.
  induction s as [|c s IH]; cbn [skip_ws]; [lia|].
  destruct (json_ws c); cbn [List.length]; lia.
Qed.

Lemma cons_fst_length {A} (c : char) (r : option (str * A)) k rest :
  cons_fst c r = Some (k, rest) -> exists k', r = Some (k', rest).
Proof.
  destruct r as [[k' rest']|]; cbn; [|discriminate].
  intros H. injection H as <- <-. eauto.
Qed.

Lemma scanstring_length (n : nat) :
  forall s k r, (List.length s <= n)%nat ->
    scanstring s = Some (k, r) -> (List.length r < List.length s)%nat.
Proof.
  induction n as [|n IH]; intros s k r Hn H.
  - destruct s; [discriminate | cbn in Hn; lia].
  - destruct s as [|c s1]; [discriminate|]. cbn [scanstring] in H.
    cbn [List.length] in *.
    repeat match type of H with
    | Some _ = Some _ => injection H as <- <-
    | cons_fst _ _ = Some _ => apply cons_fst_length in H as [? H]; apply IH in H
    | context [match ?x with _ => _ end] => destruct x eqn:?; try discriminate
    end; cbn [List.length] in *; lia.
Qed.

Lemma span_digits_length (s ds r : str) :
  span_digits s = (ds, r) -> (List.length r <= List.length s)%nat.
Proof.
  revert ds r. induction s as [|c s IH]; cbn [span_digits]; intros ds r H.
  - injection H as <- <-. lia.
  - destruct (isdigit c).
    + destruct (span_digits s) as [ds' r'] eqn:E. injection H as <- <-.
      specialize (IH _ _ eq_refl). cbn [List.length]. lia.
    + injection H as <- <-. lia.
Qed.

Lemma match_digits_length (s ds r : str) :
  match_digits s = Some (ds, r) -> (List.length r < List.length s)%nat.
Proof.
  destruct s as [|d s1]; cbn [match_digits List.length]; [discriminate|].
  destruct (d =? ch "0"); [intros H; injection H as <- <-; lia|].
  destruct (isdigit d); [|discriminate].
  destruct (span_digits s1) as [ds' r'] eqn:E. intros H. injection H as <- <-.
  apply span_digits_length in E. lia.
Qed.

Lemma match_integer_length (s ds r : str) (neg : bool) :
  match_integer s = Some (neg, ds, r) -> (List.length r < List.length s)%nat.
Proof.
  destruct s as [|c s1]; [discriminate|]. cbn [match_integer].
  destruct (c =? ch "-").
  - destruct (match_digits s1) as [[ds' r']|] eqn:E; [|discriminate].
    intros H. injection H as _ <- <-. apply match_digits_length in E.
    cbn [List.length]. lia.
  - destruct (match_digits (c :: s1)) as [[ds' r']|] eqn:E; [|discriminate].
    intros H. injection H as _ <- <-. apply match_digits_length in E. exact E.
Qed.

Lemma match_frac_length (s f r : str) :
  match_frac s = (f, r) -> (List.length r <= List.length s)%nat.
Proof.
  destruct s as [|c s1]; cbn [match_frac]; [intros H; injection H as <- <-; lia|].
  destruct (c =? ch "."); [|intros H; injection H as <- <-; lia].
  destruct (span_digits s1) as [[|d ds] r'] eqn:E; intros H; injection H as <- <-.
  - lia.
  - apply span_digits_length in E. cbn [List.length]. lia.
Qed.

Lemma match_exp_length (s e r : str) :
  match_exp s = (e, r) -> (List.length r <= List.length s)%nat.
Proof.
  destruct s as [|c s1]; cbn [match_exp]; [intros H; injection H as <- <-; lia|].
  destruct ((c =? ch "e") || (c =? ch "E")); [|intros H; injection H as <- <-; lia].
  destruct (match_sign s1) as [sign s2] eqn:G.
  assert (L : (List.length s2 <= List.length s1)%nat).
  { destruct s1 as [|g s1']; cbn [match_sign] in G; [injection G as <- <-; lia|].
    destruct ((g =? ch "-") || (g =? ch "+")); injection G as <- <-;
      cbn [List.length]; lia. }
  destruct (span_digits s2) as [[|d ds] r'] eqn:E; intros H; injection H as <- <-.
  - lia.
  - apply span_digits_length in E. cbn [List.length]. lia.
Qed.

Lemma match_number_length (s r : str) (v : value) :
  match_number s = Some (v, r) -> (List.length r < List.length s)%nat.
Proof.
  unfold match_number.
  destruct (match_integer s) as [[[neg ds] r0]|] eqn:E; [|discriminate].
  destruct (match_frac r0) as [frac r1] eqn:F.
  destruct (match_exp r1) as [exp r2] eqn:X.
  apply match_integer_length in E. apply match_frac_length in F.
  apply match_exp_length in X.
  destruct frac, exp; intros H; injection H as <- <-; lia.
Qed.

(** Length facts about the pieces of input named in the context. *)
Ltac length_facts :=
  repeat match goal with
  | H : skip_ws ?s = _ |- _ =>
      let L := fresh "L" in
      pose proof (skip_ws_length s) as L; rewrite H in L;
      cbn [List.length] in L; clear H
  | H : scanstring ?s = Some _ |- _ =>
      apply (scanstring_length _ _ _ _ (le_n _)) in H
  | H : match_number ?s = Some _ |- _ => apply match_number_length in H
  end;
  repeat match goal with
  | H : context [List.length (skip_ws ?s)] |- _ =>
      lazymatch goal with
      | _ : (List.length (skip_ws s) <= List.length s)%nat |- _ => fail
      | _ => pose proof (skip_ws_length s)
      end
  | |- context [List.length (skip_ws ?s)] =>
      lazymatch goal with
      | _ : (List.length (skip_ws s) <= List.length s)%nat |- _ => fail
      | _ => pose proof (skip_ws_length s)
      end
  end.

Ltac break_outcome H :=
  repeat match type of H with
  | Done _ _ = Done _ _ => injection H as <- <-
  | context [match ?x with _ => _ end] => destruct x eqn:?; try discriminate
  end.

(** Every scanning function that returns has consumed input. *)
Lemma scan_length (f : nat) :
  (forall s v r, scan_once f s = Done v r ->
     (List.length r < List.length s)%nat) /\
  (forall s v r, JSONObject f s = Done v r ->
     (List.length r < List.length s)%nat) /\
  (forall s ps v r, object_members f s ps = Done v r ->
     (List.length r < List.length s)%nat) /\
  (forall s v r, JSONArray f s = Done v r ->
     (List.length r < List.length s)%nat) /\
  (forall s vs v r, array_elements f s vs = Done v r ->
     (List.length r < List.length s)%nat).
Proof.
  induction f as [|f (IHs & IHo & IHm & IHa & IHe)].
  - repeat split; intros; discriminate.
  - repeat split.
    + intros s v r H. cbn [scan_once] in H.
      destruct s as [|c s1]; [discriminate|].
      repeat match type of H with
      | Done _ _ = Done _ _ => injection H as <- <-
      | JSONObject _ _ = _ => apply IHo in H
      | JSONArray _ _ = _ => apply IHa in H
      | context [match ?x with _ => _ end] => destruct x eqn:?; try discriminate
      end; length_facts; cbn [List.length] in *; try lia;
      repeat match goal with
      | |- context [match ?l with [] => _ | _ :: _ => _ end] => destruct l
      end; cbn [List.length]; lia.
    + intros s v r H. cbn [JSONObject] in H.
      repeat match type of H with
      | Done _ _ = Done _ _ => injection H as <- <-
      | object_members _ _ _ = _ => apply IHm in H
      | context [match ?x with _ => _ end] => destruct x eqn:?; try discriminate
      end; length_facts; cbn [List.length] in *; lia.
    + intros s ps v r H. cbn [object_members] in H.
      repeat match type of H with
      | Done _ _ = Done _ _ => injection H as <- <-
      | object_members _ _ _ = _ => apply IHm in H
      | context [match scan_once ?g ?x with _ => _ end] =>
          let E := fresh "E" in
          destruct (scan_once g x) eqn:E; try discriminate; apply IHs in E
      | context [match ?x with _ => _ end] => destruct x eqn:?; try discriminate
      end; length_facts; cbn [List.length] in *; lia.
    + intros s v r H. cbn [JSONArray] in H.
      repeat match type of H with
      | Done _ _ = Done _ _ => injection H as <- <-
      | array_elements _ _ _ = _ => apply IHe in H
      | context [match ?x with _ => _ end] => destruct x eqn:?; try discriminate
      end; length_facts; cbn [List.length] in *; try lia.
    + intros s vs v r H. cbn [array_elements] in H.
      repeat match type of H with
      | Done _ _ = Done _ _ => injection H as <- <-
      | array_elements _ _ _ = _ => apply IHe in H
      | context [match scan_once ?g ?x with _ => _ end] =>
          let E := fresh "E" in
          destruct (scan_once g x) eqn:E; try discriminate; apply IHs in E
      | context [match ?x with _ => _ end] => destruct x eqn:?; try discriminate
      end; length_facts; cbn [List.length] in *; lia.
Qed.

(** Three units of budget per character are enough: the scanner never
    stops for lack of budget. *)
Lemma scan_budget (f : nat) :
  (forall s, (3 * List.length s + 1 <= f)%nat -> scan_once f s <> Fuel) /\
  (forall s, (3 * List.length s + 3 <= f)%nat -> JSONObject f s <> Fuel) /\
  (forall s ps, (3 * List.length s + 2 <= f)%nat ->
     object_members f s ps <> Fuel) /\
  (forall s, (3 * List.length s + 3 <= f)%nat -> JSONArray f s <> Fuel) /\
  (forall s vs, (3 * List.length s + 2 <= f)%nat ->
     array_elements f s vs <> Fuel).
Proof.
  induction f as [|f (IHs & IHo & IHm & IHa & IHe)].
  - repeat split; intros; lia.
  - destruct (scan_length f) as (Ls & _).
    repeat split.
    + intros s Hf H. cbn [scan_once] in H.
      destruct s as [|c s1]; [discriminate|]. cbn [List.length] in Hf.
      repeat match type of H with
      | JSONObject _ _ = Fuel => eapply IHo; [|exact H]; lia
      | JSONArray _ _ = Fuel => eapply IHa; [|exact H]; lia
      | context [match ?x with _ => _ end] => destruct x eqn:?; try discriminate
      end.
    + intros s Hf H. cbn [JSONObject] in H.
      repeat match type of H with
      | object_members _ _ _ = Fuel =>
          eapply IHm; [|exact H]; length_facts; lia
      | context [match ?x with _ => _ end] => destruct x eqn:?; try discriminate
      end.
    + intros s ps Hf H. cbn [object_members] in H.
      repeat match type of H with
      | object_members _ _ _ = Fuel =>
          eapply IHm; [|exact H]; length_facts; cbn [List.length] in *; lia
      | context [match scan_once ?g (skip_ws ?x) with _ => _ end] =>
          let E := fresh "E" in
          destruct (scan_once g (skip_ws x)) eqn:E; try discriminate;
          [ apply Ls in E
          | exfalso; eapply IHs; [|exact E]; length_facts;
            pose proof (skip_ws_length x); cbn [List.length] in *; lia ]
      | context [match ?x with _ => _ end] => destruct x eqn:?; try discriminate
      end.
    + intros s Hf H. cbn [JSONArray] in H.
      repeat match type of H with
      | array_elements _ _ _ = Fuel =>
          eapply IHe; [|exact H]; length_facts; cbn [List.length] in *; lia
      | context [match ?x with _ => _ end] => destruct x eqn:?; try discriminate
      end.
    + intros s vs Hf H. cbn [array_elements] in H.
      repeat match type of H with
      | array_elements _ _ _ = Fuel =>
          eapply IHe; [|exact H]; length_facts; cbn [List.length] in *; lia
      | context [match scan_once ?g ?x with _ => _ end] =>
          let E := fresh "E" in
          destruct (scan_once g x) eqn:E; try discriminate;
          [ apply Ls in E | exfalso; eapply IHs; [|exact E]; lia ]
      | context [match ?x with _ => _ end] => destruct x eqn:?; try discriminate
      end.
Qed.

Lemma scan_once_budget (s : str) :
  scan_once (3 * List.length s + 1) (skip_ws s) <> Fuel.
Proof.
  apply (proj1 (scan_budget _)). pose proof (skip_ws_length s). lia.
Qed.


(** ** Stripping and decoding a tagged block *)

Lemma lstrip_nonspace (c : char) (s : str) :
  isspace c = false -> lstrip (c :: s) = c :: s.
Proof. intros H. cbn [lstrip]. rewrite H. reflexivity. Qed.

Lemma rstrip_nonspace (c : char) (s : str) :
  isspace c = false -> rstrip (c :: s) = c :: rstrip s.
Proof.
  intros H. cbn [rstrip]. destruct (rstrip s); [rewrite H|]; reflexivity.
Qed.

Lemma strip_nonspace (c : char) (s : str) :
  isspace c = false -> strip (c :: s) = c :: rstrip s.
Proof.
  intros H. unfold strip. rewrite (lstrip_nonspace _ _ H).
  apply rstrip_nonspace, H.
Qed.

(** No JSON text starts with the letter [j]. *)
Lemma json_loads_j (s : str) : json_loads (ch "j" :: s) = inl JSONDecodeError.
Proof.
  unfold json_loads.
  replace (3 * List.length (ch "j" :: s) + 1)%nat
    with (S (3 * List.length s + 3))%nat by (cbn [List.length]; lia).
  reflexivity.
Qed.

Lemma json_loads_tagged (body : str) :
  json_loads (strip (py "json" ++ body)) = inl JSONDecodeError.
Proof.
  change (py "json" ++ body) with (ch "j" :: py "son" ++ body).
  rewrite strip_nonspace by reflexivity. apply json_loads_j.
Qed.

(** ** The logger does not feed back into the result *)

Lemma uniform_ret {A} (a : A) : uniform (ret a).
Proof. intros l. unfold ret. cbn. now rewrite app_nil_r. Qed.

Lemma uniform_raise {A} (e : exn) : uniform (@raise A e).
Proof. intros l. unfold raise. cbn. now rewrite app_nil_r. Qed.

Lemma uniform_lift {A} (r : exn + A) : uniform (lift r).
Proof. intros l. unfold lift. cbn. now rewrite app_nil_r. Qed.

Lemma uniform_logger_warning (fmt : string) (arg : value) :
  uniform (logger_warning fmt arg).
Proof. intros l. reflexivity. Qed.



Create HintDb uniform.

#[local] Hint Resolve uniform_ret uniform_raise uniform_lift
  uniform_logger_warning : uniform.

Lemma uniform_getitem obj key : uniform (getitem obj key).
Proof.
  unfold getitem. destruct obj; auto with uniform.
  destruct (dict_get key d); auto with uniform.
Qed.

Lemma uniform_get obj key default : uniform (get obj key default).
Proof.
  unfold get. destruct obj; auto with uniform.
  destruct (dict_get key d); auto with uniform.
Qed.

Lemma uniform_getitem0 l : uniform (getitem0 l).
Proof. destruct l; cbn; auto with uniform. Qed.

#[local] Hint Resolve uniform_getitem uniform_get uniform_getitem0 : uniform.




(** ** Running the structured parser on a found block *)

Lemma parse_no_match (text : str) (l : list log_record) :
  re_search text = None ->
  parse text l = (inr (AgentFinish (output_dict (VStr text)) text), l).
Proof. intros H. unfold parse, try_except. rewrite H. reflexivity. Qed.

Lemma parse_match (text group1 : str) (l : list log_record) :
  re_search text = Some group1 ->
  parse text l = try_except (parse_block group1 text) (handler text) l.
Proof. intros H. unfold parse. rewrite H. reflexivity. Qed.

Lemma parse_undecodable (text group1 : str) (e : exn) (l : list log_record) :
  re_search text = Some group1 ->
  json_loads (strip group1) = inl e ->
  parse text l = (inl (OutputParserException (could_not_parse text) (Some e)), l).
Proof.
  intros H J. rewrite (parse_match _ _ _ H).
  unfold try_except, parse_block, bind, lift. rewrite J. reflexivity.
Qed.

Lemma parse_decoded (text group1 : str) (response : value) (l : list log_record) :
  re_search text = Some group1 ->
  json_loads (strip group1) = inr response ->
  parse text l = try_except (parse_response response text) (handler text) l.
Proof.
  intros H J. rewrite (parse_match _ _ _ H).
  unfold try_except, parse_block, bind, lift. rewrite J. reflexivity.
Qed.

(** The decision for a record that has both keys. *)
Lemma parse_response_record (d : dict) (action action_input : value)
    (text : str) (l : list log_record) :
  dict_get (py "action") d = Some action ->
  dict_get (py "action_input") d = Some action_input ->
  parse_response (VDict d) text l =
    (inr (if eq_str action (py "Final Answer")
          then AgentFinish (output_dict action_input) text
          else AgentAction action action_input text), l).
Proof.
  intros Ha Hi. cbv [parse_response bind ret raise getitem get].
  rewrite Ha. destruct (eq_str action (py "Final Answer"));
    rewrite ?Ha, Hi; reflexivity.
Qed.

(** The decision for a record without [action_input]. *)
Lemma parse_response_no_input (d : dict) (action : value)
    (text : str) (l : list log_record) :
  dict_get (py "action") d = Some action ->
  dict_get (py "action_input") d = None ->
  parse_response (VDict d) text l =
    (if eq_str action (py "Final Answer")
     then inl (KeyError (py "action_input"))
     else inr (AgentAction action (VDict []) text), l).
Proof.
  intros Ha Hi. cbv [parse_response bind ret raise getitem get].
  rewrite Ha. destruct (eq_str action (py "Final Answer"));
    rewrite ?Ha, Hi; reflexivity.
Qed.

(** * The properties of the specification *)

(** ** C1: a block tagged [json] *)

(** C1, counterexample.  The input is an opening fence immediately followed
    by the tag [json], a line holding the valid record
    [{"action": "Search", "action_input": "term"}] and a closing fence.
    The record alone decodes, yet the parser raises: the tag is part of
    group 1 and the decoder refuses it. *)
Lemma C1_tagged_block_raises :
  let text := fence ++ py "json" ++ [10] ++ search_record ++ [10] ++ fence in
  json_loads search_record =
    inr (VDict [(py "action", VStr (py "Search"));
                (py "action_input", VStr (py "term"))]) /\
  re_search text = Some (py "json" ++ [10] ++ search_record ++ [10]) /\
  StructuredChatOutputParser.parse text [] =
    (inl (OutputParserException (could_not_parse text) (Some JSONDecodeError)),
     []).
Proof. vm_compute. repeat split. Qed.

(** C1, amended.  For every input whose first fenced block opens with a bare
    fence (no backtick before the fence nor inside the block), if the
    stripped contents of the block decode to a record with the keys
    [action] and [action_input], [parse] returns the corresponding decision
    (Finish when the action is ["Final Answer"], Action otherwise).  When
    the tag [json] follows the opening fence it is part of the decoded
    contents, and [parse] raises [OutputParserException] whatever the
    block holds. *)
Theorem C1_bare_block_parsed_tagged_block_raises
    (pre body post : str) (l : list log_record) :
  no_backtick pre = true -> no_backtick body = true ->
  (forall d action action_input,
     json_loads (strip body) = inr (VDict d) ->
     dict_get (py "action") d = Some action ->
     dict_get (py "action_input") d = Some action_input ->
     let text := pre ++ fence ++ body ++ fence ++ post in
     StructuredChatOutputParser.parse text l =
       (inr (if eq_str action (py "Final Answer")
             then AgentFinish (output_dict action_input) text
             else AgentAction action action_input text), l)) /\
  (let text := pre ++ fence ++ py "json" ++ body ++ fence ++ post in
   StructuredChatOutputParser.parse text l =
     (inl (OutputParserException (could_not_parse text) (Some JSONDecodeError)),
      l)).
Proof.
  intros Hp Hb. split.
  - intros d action action_input J Ha Hi text.
    assert (S : re_search text = Some body).
    { apply (re_search_fenced pre body (backtick :: post) Hp Hb). }
    rewrite (parse_decoded _ _ _ _ S J). unfold try_except.
    rewrite (parse_response_record _ _ _ _ _ Ha Hi). reflexivity.
  - intros text.
    assert (S : re_search text = Some (py "json" ++ body)).
    { apply (re_search_fenced pre (py "json" ++ body) (backtick :: post) Hp).
      exact Hb. }
    apply (parse_undecodable _ _ _ _ S), json_loads_tagged.
Qed.

Lemma C1_bare_block_parsed_tagged_block_raises_witness :
  let pre := py "Action:" ++ [10] in
  let body := [10] ++ search_record ++ [10] in
  (let text := pre ++ fence ++ body ++ fence in
   StructuredChatOutputParser.parse text [] =
     (inr (AgentAction (VStr (py "Search")) (VStr (py "term")) text), [])) /\
  (let text := pre ++ fence ++ py "json" ++ body ++ fence in
   StructuredChatOutputParser.parse text [] =
     (inl (OutputParserException (could_not_parse text) (Some JSONDecodeError)),
      [])).
Proof.
  intros pre body.
  destruct (C1_bare_block_parsed_tagged_block_raises pre body [] []
              eq_refl eq_refl) as [Hbare Htagged].
  split.
  - apply (Hbare [(py "action", VStr (py "Search"));
                  (py "action_input", VStr (py "term"))]
             (VStr (py "Search")) (VStr (py "term"))); reflexivity.
  - exact Htagged.
Defined.

(** ** C2: what the retry wrapper raises *)

Lemma attached_text_could_not_parse (text : str) (cause : option exn) :
  attached_text (OutputParserException (could_not_parse text) cause) = Some text.
Proof. reflexivity. Qed.

Lemma exn_not_own_cause (e : exn) (msg : str) :
  e <> OutputParserException msg (Some e).
Proof.
  intros E. apply (f_equal cause_depth) in E. cbn [cause_depth] in E. lia.
Qed.

(** C2, counterexample.  (1) No corrector, default base parser, a block
    that is not JSON: the base parser raises [e] and the wrapper raises
    another error, which has [e] as its cause.  (2) No corrector, a base
    parser that raises [e2], an error about another text: the wrapper
    raises an error about its own input, so neither the error nor the
    attached text is the base parser's.  (3) A corrector that fails with
    [e2]: the same, the corrector's error does not reach the caller. *)
Lemma C2_wrapper_raises_another_error :
  let text := fence ++ py "abc" ++ fence in
  let e := OutputParserException (could_not_parse text) (Some JSONDecodeError) in
  let e2 := OutputParserException (could_not_parse (py "reply")) None in
  let other_base :=
    {| Retries.base_parser := always_raises e2;
       Retries.output_fixing_parser := None |} in
  let fixing :=
    {| Retries.base_parser := StructuredChatOutputParser.self;
       Retries.output_fixing_parser := Some (always_raises e2) |} in
  (StructuredChatOutputParser.parse text [] = (inl e, []) /\
   exists e', Retries.parse Retries.default text [] = (inl e', []) /\ e' <> e) /\
  (AgentOutputParser.parse (always_raises e2) text [] = (inl e2, []) /\
   exists e', Retries.parse other_base text [] = (inl e', []) /\
     e' <> e2 /\ attached_text e' <> attached_text e2) /\
  (exists e', Retries.parse fixing text [] = (inl e', []) /\
     e' <> e2 /\ attached_text e' <> attached_text e2).
Proof.
  cbv zeta. split; [split|split; [split|]]; try reflexivity.
  - eexists. split; [vm_compute; reflexivity|]. vm_compute. discriminate.
  - eexists. split; [vm_compute; reflexivity|].
    split; vm_compute; discriminate.
  - eexists. split; [vm_compute; reflexivity|].
    split; vm_compute; discriminate.
Qed.

(** The errors of the lenient parser all carry the message built from its
    input. *)
Lemma parse_error_message (text : str) (e : exn) (l l' : list log_record) :
  parse text l = (inl e, l') ->
  exists cause, e = OutputParserException (could_not_parse text) (Some cause).
Proof.
  unfold parse, try_except, handler, raise.
  destruct (match re_search text with
            | Some group1 => parse_block group1 text
            | None => ret (AgentFinish (output_dict (VStr text)) text)
            end l) as [[c|d] l1]; intros H; [|discriminate H].
  injection H as <- <-. exists c. reflexivity.
Qed.

(** C2, amended.  Whenever the call the wrapper delegates to (the base
    parser when no corrector is configured, the corrector otherwise) raises
    an error [e], the wrapper raises a new [OutputParserException] whose
    message is ["Could not parse LLM output: "] followed by the wrapper's
    own input text and whose cause is [e]: the attached text is the
    wrapper's input, and [e] itself is not what the caller receives.  With
    the default base parser and no corrector, [e] carries that same message,
    so the message and the attached text are those of [e]. *)
Theorem C2_wrapper_raises_fresh_error
    (w : Retries.t) (text : str) (e : exn) (l l' : list log_record) :
  match Retries.output_fixing_parser w with
  | None => AgentOutputParser.parse (Retries.base_parser w) text l = (inl e, l')
  | Some fixing => AgentOutputParser.parse fixing text l = (inl e, l')
  end ->
  Retries.parse w text l =
    (inl (OutputParserException (could_not_parse text) (Some e)), l') /\
  attached_text (OutputParserException (could_not_parse text) (Some e)) =
    Some text /\
  OutputParserException (could_not_parse text) (Some e) <> e /\
  (w = Retries.default ->
   exists cause, e = OutputParserException (could_not_parse text) cause).
Proof.
  intros H. repeat split.
  - unfold Retries.parse, try_except.
    destruct (Retries.output_fixing_parser w); rewrite H; reflexivity.
  - apply not_eq_sym, exn_not_own_cause.
  - intros ->. cbn in H. apply parse_error_message in H as [c ->]. eauto.
Qed.

Lemma C2_wrapper_raises_fresh_error_witness :
  let text := fence ++ py "abc" ++ fence in
  let e := OutputParserException (could_not_parse text) (Some JSONDecodeError) in
  Retries.parse Retries.default text [] =
    (inl (OutputParserException (could_not_parse text) (Some e)), []) /\
  attached_text (OutputParserException (could_not_parse text) (Some e)) =
    Some text /\
  OutputParserException (could_not_parse text) (Some e) <> e /\
  (Retries.default = Retries.default ->
   exists cause, e = OutputParserException (could_not_parse text) cause).
Proof.
  intros text e.
  apply (C2_wrapper_raises_fresh_error Retries.default text e [] []).
  reflexivity.
Defined.

(** ** C3: the strict variant on a record without [action] *)

(** C3.  In the strict variant, whenever the structured block parses to a
    record that has no [action] key, [parse] raises an
    [OutputParserException], and the text attached to it is the original
    input verbatim. *)
Theorem C3_strict_missing_action_raises
    (parse_json_markdown : str -> M value)
    (text : str) (d : dict) (l l' : list log_record) :
  parse_json_markdown text l = (inr (VDict d), l') ->
  dict_get (py "action") d = None ->
  exists e,
    ConvoOutputParser.parse parse_json_markdown text l = (inl e, l') /\
    e = OutputParserException (could_not_parse text) (Some (missing_keys text)) /\
    attached_text e = Some text.
Proof.
  intros Hp Ha. eexists. split; [|split; [reflexivity|]].
  - unfold ConvoOutputParser.parse, try_except, bind. rewrite Hp.
    cbv [contains ret]. rewrite Ha. reflexivity.
  - apply attached_text_could_not_parse.
Qed.

Lemma C3_strict_missing_action_raises_witness :
  let pjm := fun _ : str => ret (VDict [(py "action_input", VStr (py "hi"))]) in
  let text := fence ++ js "{'action_input': 'hi'}" ++ fence in
  exists e,
    ConvoOutputParser.parse pjm text [] = (inl e, []) /\
    e = OutputParserException (could_not_parse text) (Some (missing_keys text)) /\
    attached_text e = Some text.
Proof.
  intros pjm text.
  apply (C3_strict_missing_action_raises pjm text
           [(py "action_input", VStr (py "hi"))] [] []); reflexivity.
Defined.

(** ** C4: a record without [action_input] *)

(** C4, counterexample.  The block holds the single record
    [{"action": "Final Answer"}]: it has the key [action] and lacks
    [action_input], and [parse] raises; the cause is the [KeyError] of
    [response["action_input"]]. *)
Lemma C4_final_answer_without_input_raises :
  let text := fence ++ js "{'action': 'Final Answer'}" ++ fence in
  re_search text = Some (js "{'action': 'Final Answer'}") /\
  json_loads (js "{'action': 'Final Answer'}") =
    inr (VDict [(py "action", VStr (py "Final Answer"))]) /\
  StructuredChatOutputParser.parse text [] =
    (inl (OutputParserException (could_not_parse text)
            (Some (KeyError (py "action_input")))), []).
Proof. vm_compute. repeat split. Qed.

(** C4, amended.  For every input whose fenced block parses to a single
    record that has the key [action] with a value other than
    ["Final Answer"] and lacks the key [action_input], [parse] succeeds and
    returns Action with that value as toolName and the empty structure
    [{}] as toolInput. *)
Theorem C4_action_without_input_defaults
    (text group1 : str) (d : dict) (action : value) (l : list log_record) :
  re_search text = Some group1 ->
  json_loads (strip group1) = inr (VDict d) ->
  dict_get (py "action") d = Some action ->
  dict_get (py "action_input") d = None ->
  eq_str action (py "Final Answer") = false ->
  StructuredChatOutputParser.parse text l =
    (inr (AgentAction action (VDict []) text), l).
Proof.
  intros S J Ha Hi Hf. rewrite (parse_decoded _ _ _ _ S J). unfold try_except.
  rewrite (parse_response_no_input _ _ _ _ Ha Hi), Hf. reflexivity.
Qed.

Lemma C4_action_without_input_defaults_witness :
  let text := fence ++ js "{'action': 'Clock'}" ++ fence in
  StructuredChatOutputParser.parse text [] =
    (inr (AgentAction (VStr (py "Clock")) (VDict []) text), []).
Proof.
  intros text.
  apply (C4_action_without_input_defaults text (js "{'action': 'Clock'}")
           [(py "action", VStr (py "Clock"))]); reflexivity.
Defined.

(** ** C5: a text without a block *)

Lemma count_backtick_app (a b : str) :
  count_occ N.eq_dec (a ++ b) backtick =
  (count_occ N.eq_dec a backtick + count_occ N.eq_dec b backtick)%nat.
Proof. apply count_occ_app. Qed.

(** A text with an opening and a closing fence of three backticks each
    holds at least six backticks. *)
Lemma fenced_six_backticks (pre body post : str) :
  (6 <= count_occ N.eq_dec (pre ++ fence ++ body ++ fence ++ post) backtick)%nat.
Proof.
  rewrite !count_backtick_app.
  change (count_occ N.eq_dec fence backtick) with 3%nat. lia.
Qed.

(** C5, counterexample.  The text is an opening fence, [abc] and two
    backticks: no region of it is delimited by triple backticks, yet the
    search matches (the third closing backtick is optional), [abc] is not
    JSON, and [parse] raises instead of returning Finish. *)
Lemma C5_two_backtick_close_raises :
  let text := fence ++ py "abc" ++ fence2 in
  (forall pre body post, text <> pre ++ fence ++ body ++ fence ++ post) /\
  StructuredChatOutputParser.parse text [] =
    (inl (OutputParserException (could_not_parse text) (Some JSONDecodeError)),
     []).
Proof.
  cbv zeta. split; [|reflexivity].
  intros pre body post E.
  pose proof (fenced_six_backticks pre body post) as H.
  rewrite <- E in H. vm_compute in H. lia.
Qed.

(** C5, amended.  For every input in which no triple backtick is followed,
    at any distance, by two consecutive backticks, [parse] returns Finish
    whose output is the entire input text, and does not raise. *)
Theorem C5_no_block_finishes_with_text (text : str) (l : list log_record) :
  (forall pre body post, text <> pre ++ fence ++ body ++ fence2 ++ post) ->
  StructuredChatOutputParser.parse text l =
    (inr (AgentFinish (output_dict (VStr text)) text), l).
Proof.
  intros H. apply parse_no_match.
  destruct (re_search text) as [g|] eqn:E; [|reflexivity].
  destruct (re_search_inv _ _ E) as (pre & post & Ht).
  destruct (H _ _ _ Ht).
Qed.

Lemma no_fence_without_backtick (text : str) :
  count_occ N.eq_dec text backtick = 0%nat ->
  forall pre body post, text <> pre ++ fence ++ body ++ fence2 ++ post.
Proof.
  intros H pre body post E. rewrite E, !count_backtick_app in H.
  change (count_occ N.eq_dec fence backtick) with 3%nat in H. lia.
Qed.

Lemma C5_no_block_finishes_with_text_witness :
  let text := py "The answer is 42." in
  StructuredChatOutputParser.parse text [] =
    (inr (AgentFinish (output_dict (VStr text)) text), []).
Proof.
  intros text. apply (C5_no_block_finishes_with_text text []).
  apply no_fence_without_backtick. reflexivity.
Defined.

(** The hypothesis of the amended C5 is exactly the failure of the search. *)
Lemma lazy_group_finds (body post : str) :
  lazy_group (body ++ fence2 ++ post) <> None.
Proof.
  induction body as [|c body IH]; [discriminate|].
  rewrite <- app_comm_cons. cbn [lazy_group].
  destruct (startswith fence2 (c :: body ++ fence2 ++ post)); [discriminate|].
  destruct (lazy_group (body ++ fence2 ++ post)); [discriminate|contradiction].
Qed.

Lemma re_search_finds (pre body post : str) :
  re_search (pre ++ fence ++ body ++ fence2 ++ post) <> None.
Proof.
  induction pre as [|c pre IH].
  - cbn [app]. pose proof (lazy_group_finds body post) as H.
    rewrite <- match_here_fence in H.
    destruct (match_here (fence ++ body ++ fence2 ++ post)) as [g|] eqn:E;
      [|contradiction].
    rewrite (re_search_here _ _ E). discriminate.
  - rewrite <- app_comm_cons. cbn [re_search].
    destruct (match_here (c :: pre ++ fence ++ body ++ fence2 ++ post));
      [discriminate | exact IH].
Qed.

(** ** C6: a sequence of records *)



(** ** C7: the raw log *)

Ltac break_run H :=
  repeat match type of H with
  | (inl _, _) = (inr _, _) => discriminate H
  | (inr _, _) = (inr _, _) => injection H as <- <-
  | context [match ?x with _ => _ end] =>
      lazymatch x with
      | context [match _ with _ => _ end] => fail
      | _ => destruct x eqn:?
      end
  end.

Lemma parse_response_rawLog response text l d l' :
  parse_response response text l = (inr d, l') -> rawLog d = text.
Proof.
  intros H.
  cbv [parse_response bind ret raise getitem get getitem0 logger_warning] in H.
  break_run H; reflexivity.
Qed.

(** C7.  Whenever [parse] returns, in the lenient or in the strict
    variant, the rawLog of the decision it returns is the input text
    verbatim. *)
Theorem C7_rawLog_is_input :
  (forall text l d l',
     StructuredChatOutputParser.parse text l = (inr d, l') ->
     rawLog d = text) /\
  (forall parse_json_markdown text l d l',
     ConvoOutputParser.parse parse_json_markdown text l = (inr d, l') ->
     rawLog d = text).
Proof.
  split.
  - intros text l d l' H. unfold parse, try_except in H.
    destruct (re_search text) as [g|].
    + unfold parse_block, bind, lift in H.
      destruct (json_loads (strip g)) as [e|response]; [discriminate H|].
      destruct (parse_response response text l) as [[e|d'] l1] eqn:E;
        [discriminate H|].
      injection H as <- <-. apply (parse_response_rawLog _ _ _ _ _ E).
    + injection H as <- <-. reflexivity.
  - intros pjm text l d l' H.
    unfold ConvoOutputParser.parse, try_except, bind in H.
    destruct (pjm text l) as [[e|response] l1]; [discriminate H|].
    destruct response; cbv [contains ret raise getitem negb] in H;
      break_run H; reflexivity.
Qed.

Lemma C7_rawLog_is_input_witness :
  let text := fence ++ search_record ++ fence in
  let action := AgentAction (VStr (py "Search")) (VStr (py "term")) text in
  let finish := AgentFinish (output_dict (VStr (py "done"))) (py "anything") in
  let pjm := fun _ : str =>
    ret (VDict [(py "action", VStr (py "Final Answer"));
                (py "action_input", VStr (py "done"))]) in
  (StructuredChatOutputParser.parse text [] = (inr action, []) /\
   rawLog action = text) /\
  (ConvoOutputParser.parse pjm (py "anything") [] = (inr finish, []) /\
   rawLog finish = py "anything").
Proof.
  intros text action finish pjm.
  destruct C7_rawLog_is_input as [Hlenient Hstrict].
  split; (split; [reflexivity|]).
  - apply (Hlenient text [] action []). reflexivity.
  - apply (Hstrict pjm (py "anything") [] finish []). reflexivity.
Defined.

(** ** C8: determinism *)


(** ** C9: the comparison with ["Final Answer"] *)

Lemma eq_str_neq (a s : str) : a <> s -> eq_str (VStr a) s = false.
Proof. intros H. cbn [eq_str]. apply str_eqb_neq, H. Qed.

(** C9.  The comparison is exact string equality.  Let the block parse to
    a record whose [action] is a string other than ["Final Answer"], be it
    only by its case or by surrounding white space.  The lenient variant
    returns Action with that string as toolName (and the [action_input],
    or [{}] without one, as toolInput).  The strict variant returns Action
    with that string as toolName once the record has its [action_input],
    and in no case returns Finish. *)
Theorem C9_final_answer_exact_match
    (text : str) (d : dict) (a : str) (l : list log_record) :
  dict_get (py "action") d = Some (VStr a) ->
  a <> py "Final Answer" ->
  (forall group1,
     re_search text = Some group1 ->
     json_loads (strip group1) = inr (VDict d) ->
     StructuredChatOutputParser.parse text l =
       (inr (AgentAction (VStr a)
               match dict_get (py "action_input") d with
               | Some action_input => action_input
               | None => VDict []
               end text), l)) /\
  (forall parse_json_markdown l',
     parse_json_markdown text l = (inr (VDict d), l') ->
     (forall action_input,
        dict_get (py "action_input") d = Some action_input ->
        ConvoOutputParser.parse parse_json_markdown text l =
          (inr (AgentAction (VStr a) action_input text), l')) /\
     (forall return_values log,
        fst (ConvoOutputParser.parse parse_json_markdown text l) <>
          inr (AgentFinish return_values log))).
Proof.
  intros Ha Hne. pose proof (eq_str_neq _ _ Hne) as Hf. split.
  - intros group1 S J. rewrite (parse_decoded _ _ _ _ S J). unfold try_except.
    destruct (dict_get (py "action_input") d) as [v|] eqn:Hi.
    + rewrite (parse_response_record _ _ _ _ _ Ha Hi), Hf. reflexivity.
    + rewrite (parse_response_no_input _ _ _ _ Ha Hi), Hf. reflexivity.
  - intros pjm l' Hp.
    assert (R : forall action_input,
      dict_get (py "action_input") d = Some action_input ->
      ConvoOutputParser.parse pjm text l =
        (inr (AgentAction (VStr a) action_input text), l')).
    { intros v Hi. unfold ConvoOutputParser.parse, try_except, bind.
      rewrite Hp. cbv [contains ret getitem negb]. rewrite Ha, Hi, Hf.
      reflexivity. }
    split; [exact R|].
    intros rv lg. destruct (dict_get (py "action_input") d) as [v|] eqn:Hi.
    + rewrite (R v eq_refl). discriminate.
    + unfold ConvoOutputParser.parse, try_except, bind.
      rewrite Hp. cbv [contains ret getitem negb]. rewrite Ha, Hi.
      discriminate.
Qed.

Lemma C9_final_answer_exact_match_witness :
  let block := js "{'action': 'final answer', 'action_input': 'done'}" in
  let record := [(py "action", VStr (py "final answer"));
                 (py "action_input", VStr (py "done"))] in
  let text := fence ++ block ++ fence in
  StructuredChatOutputParser.parse text [] =
    (inr (AgentAction (VStr (py "final answer")) (VStr (py "done")) text), []) /\
  ConvoOutputParser.parse (fun _ => ret (VDict record)) text [] =
    (inr (AgentAction (VStr (py "final answer")) (VStr (py "done")) text), []).
Proof.
  intros block record text.
  assert (Hne : py "final answer" <> py "Final Answer") by discriminate.
  destruct (C9_final_answer_exact_match text record (py "final answer") []
              eq_refl Hne) as [Hlenient Hstrict].
  split.
  - apply (Hlenient block); reflexivity.
  - destruct (Hstrict (fun _ => ret (VDict record)) [] eq_refl) as [Haction _].
    apply (Haction (VStr (py "done"))). reflexivity.
Defined.

(** ** C10: a closing fence of two backticks *)

(** C10.  For every input made of an opening fence of three backticks, a
    body and exactly two backticks, with no other backtick in it (nor in
    any text before or after), the search matches with the body as group
    1: [parse] does not take the no-block branch, it strips the body and
    hands it to the JSON decoder, whose result decides the outcome. *)
Theorem C10_two_backtick_close_is_block
    (pre body post : str) (l : list log_record) :
  no_backtick pre = true -> no_backtick body = true ->
  no_backtick post = true ->
  let text := pre ++ fence ++ body ++ fence2 ++ post in
  re_search text = Some body /\
  StructuredChatOutputParser.parse text l =
    try_except
      (response <- lift (json_loads (strip body)) ;;
       parse_response response text)
      (handler text) l /\
  (forall e, json_loads (strip body) = inl e ->
     StructuredChatOutputParser.parse text l =
       (inl (OutputParserException (could_not_parse text) (Some e)), l)) /\
  (forall d action action_input,
     json_loads (strip body) = inr (VDict d) ->
     dict_get (py "action") d = Some action ->
     dict_get (py "action_input") d = Some action_input ->
     StructuredChatOutputParser.parse text l =
       (inr (if eq_str action (py "Final Answer")
             then AgentFinish (output_dict action_input) text
             else AgentAction action action_input text), l)).
Proof.
  intros Hp Hb _ text.
  assert (S : re_search text = Some body) by apply (re_search_fenced _ _ _ Hp Hb).
  split; [exact S|]. split; [apply (parse_match _ _ _ S)|]. split.
  - intros e J. apply (parse_undecodable _ _ _ _ S J).
  - intros d action action_input J Ha Hi.
    rewrite (parse_decoded _ _ _ _ S J). unfold try_except.
    rewrite (parse_response_record _ _ _ _ _ Ha Hi). reflexivity.
Qed.

Lemma C10_two_backtick_close_is_block_witness :
  let body := [10] ++ search_record ++ [10] in
  let text := fence ++ body ++ fence2 in
  re_search text = Some body /\
  StructuredChatOutputParser.parse text [] =
    (inr (AgentAction (VStr (py "Search")) (VStr (py "term")) text), []).
Proof.
  intros body text.
  destruct (C10_two_backtick_close_is_block [] body [] []
              eq_refl eq_refl eq_refl) as (S & _ & _ & Hrecord).
  split.
  - rewrite app_nil_r in S. exact S.
  - pose proof (Hrecord
             [(py "action", VStr (py "Search"));
              (py "action_input", VStr (py "term"))]
             (VStr (py "Search")) (VStr (py "term"))
             eq_refl eq_refl eq_refl) as H.
    rewrite app_nil_r in H. exact H.
Defined.

(** * Further properties of the parsers *)

(** ** The lenient parser, case by case *)

(** The records the logger holds after [parse_response]: one more warning
    exactly when the response is a sequence. *)
Lemma parse_response_log (response : value) (text : str) (l : list log_record) :
  snd (parse_response response text l) =
    match response with
    | VList _ => l ++ [Warning "Got multiple action responses: %s" response]
    | _ => l
    end.
Proof.
  cbv [parse_response bind ret raise getitem get getitem0 logger_warning].
  repeat match goal with
  | |- context [match ?x with _ => _ end] =>
      lazymatch x with
      | context [match _ with _ => _ end] => fail
      | _ => destruct x eqn:?
      end
  end; reflexivity.
Qed.

Lemma parse_response_accepted (response : value) (text : str)
    (l : list log_record) :
  accepted response = true ->
  exists d, fst (parse_response response text l) = inr d.
Proof.
  cbv [accepted first_record accepted_record parse_response bind ret raise
       getitem get getitem0 logger_warning].
  intros H.
  repeat match type of H with
  | false = true => discriminate H
  | context [match ?x with _ => _ end] =>
      lazymatch x with
      | context [match _ with _ => _ end] => fail
      | _ => destruct x eqn:?
      end
  end;
  repeat match goal with
  | |- context [match ?x with _ => _ end] =>
      lazymatch x with
      | context [match _ with _ => _ end] => fail
      | _ => destruct x eqn:?
      end
  end; cbn [fst]; try congruence; eauto.
Qed.

Lemma parse_response_refused (response : value) (text : str)
    (l : list log_record) :
  accepted response = false ->
  exists e, fst (parse_response response text l) = inl e.
Proof.
  cbv [accepted first_record accepted_record parse_response bind ret raise
       getitem get getitem0 logger_warning].
  intros H.
  repeat match type of H with
  | true = false => discriminate H
  | context [match ?x with _ => _ end] =>
      lazymatch x with
      | context [match _ with _ => _ end] => fail
      | _ => destruct x eqn:?
      end
  end;
  repeat match goal with
  | |- context [match ?x with _ => _ end] =>
      lazymatch x with
      | context [match _ with _ => _ end] => fail
      | _ => destruct x eqn:?
      end
  end; cbn [fst]; try congruence; eauto.
Qed.

(** X1.  When the search finds a block, the lenient [parse] returns a
    decision exactly when the stripped block decodes and the decoded value
    is accepted: a record, or a sequence that starts with a record, which
    has the key [action] and, when the action is ["Final Answer"], the key
    [action_input].  In every other case it raises an
    [OutputParserException] whose message is built from the input text. *)
Theorem X1_lenient_accepts_exactly_usable_records
    (text group1 : str) (l : list log_record) :
  re_search text = Some group1 ->
  ((exists d l', StructuredChatOutputParser.parse text l = (inr d, l')) <->
   (exists response,
      json_loads (strip group1) = inr response /\ accepted response = true)) /\
  ((exists d l', StructuredChatOutputParser.parse text l = (inr d, l')) \/
   (exists cause l',
      StructuredChatOutputParser.parse text l =
        (inl (OutputParserException (could_not_parse text) (Some cause)), l'))).
Proof.
  intros S. rewrite (parse_match _ _ _ S).
  unfold try_except, parse_block, bind, lift, handler, raise.
  destruct (json_loads (strip group1)) as [e|response] eqn:J.
  - split; [split|].
    + intros (d & l' & H). discriminate H.
    + intros (response & H & _). discriminate H.
    + right. eauto.
  - destruct (accepted response) eqn:A.
    + destruct (parse_response_accepted response text l A) as [d Hd].
      destruct (parse_response response text l) as [r l1]. cbn [fst] in Hd.
      subst r. split; [split|]; eauto.
    + destruct (parse_response_refused response text l A) as [e He].
      destruct (parse_response response text l) as [r l1]. cbn [fst] in He.
      subst r. split; [split|].
      * intros (d & l' & H). discriminate H.
      * intros (r & H & A'). injection H as <-. congruence.
      * right. eauto.
Qed.

Lemma X1_lenient_accepts_exactly_usable_records_witness :
  let block := js "[{'action': 'Clock'}, 7]" in
  let text := py "Now: " ++ fence ++ block ++ fence in
  ((exists d l', StructuredChatOutputParser.parse text [] = (inr d, l')) <->
   (exists response,
      json_loads (strip block) = inr response /\ accepted response = true)) /\
  ((exists d l', StructuredChatOutputParser.parse text [] = (inr d, l')) \/
   (exists cause l',
      StructuredChatOutputParser.parse text [] =
        (inl (OutputParserException (could_not_parse text) (Some cause)), l'))).
Proof.
  intros block text.
  apply (X1_lenient_accepts_exactly_usable_records text block []).
  reflexivity.
Defined.


Lemma parse_response_shape response text l d l' :
  parse_response response text l = (inr d, l') ->
  match d with
  | AgentAction tool _ _ => eq_str tool (py "Final Answer") = false
  | AgentFinish return_values _ =>
      exists output, return_values = output_dict output
  end.
Proof.
  intros H.
  cbv [parse_response bind ret raise getitem get getitem0 logger_warning] in H.
  break_run H; solve [assumption | eexists; reflexivity].
Qed.

(** X2.  The two kinds of decision never overlap, in either variant: a
    returned Action never names the tool ["Final Answer"], and the values
    of a returned Finish always consist of the single key [output], so
    that a consumer's [finish.return_values["output"]] finds it. *)
Theorem X2_action_is_not_final_answer_finish_has_output :
  (forall text l d l',
     StructuredChatOutputParser.parse text l = (inr d, l') ->
     match d with
     | AgentAction tool _ _ => eq_str tool (py "Final Answer") = false
     | AgentFinish return_values _ =>
         exists output,
           return_values = output_dict output /\
           dict_get (py "output") return_values = Some output
     end) /\
  (forall parse_json_markdown text l d l',
     ConvoOutputParser.parse parse_json_markdown text l = (inr d, l') ->
     match d with
     | AgentAction tool _ _ => eq_str tool (py "Final Answer") = false
     | AgentFinish return_values _ =>
         exists output,
           return_values = output_dict output /\
           dict_get (py "output") return_values = Some output
     end).
Proof.
  split.
  - intros text l d l' H. unfold parse, try_except in H.
    destruct (re_search text) as [g|].
    + unfold parse_block, bind, lift in H.
      destruct (json_loads (strip g)) as [e|response]; [discriminate H|].
      destruct (parse_response response text l) as [[e|d'] l1] eqn:E;
        [discriminate H|].
      injection H as <- <-. apply parse_response_shape in E.
      destruct d'; [exact E|]. destruct E as [v ->]. exists v. now split.
    + injection H as <- <-. eexists. split; reflexivity.
  - intros pjm text l d l' H.
    unfold ConvoOutputParser.parse, try_except, bind in H.
    destruct (pjm text l) as [[e|response] l1]; [discriminate H|].
    destruct response; cbv [contains ret raise getitem negb] in H;
      break_run H;
      solve [assumption | eexists; split; reflexivity].
Qed.

Lemma X2_action_is_not_final_answer_finish_has_output_witness :
  let text := fence ++ js "{'action': 'Final Answer', 'action_input': 42}" ++ fence in
  exists output,
    output_dict (VInt 42) = output_dict output /\
    dict_get (py "output") (output_dict (VInt 42)) = Some output.
Proof.
  intros text.
  destruct X2_action_is_not_final_answer_finish_has_output as [Hlenient _].
  apply (Hlenient text [] (AgentFinish (output_dict (VInt 42)) text) []).
  reflexivity.
Defined.

(** X3.  A record without the key [action] is refused by the lenient
    variant too, whether it has an [action_input] or not and whether it
    stands alone or first in a sequence: [parse] raises, and the cause is
    the [KeyError] of [response["action"]]. *)
Theorem X3_lenient_missing_action_raises
    (text group1 : str) (response : value) (d : dict) (l : list log_record) :
  re_search text = Some group1 ->
  json_loads (strip group1) = inr response ->
  first_record response = Some (VDict d) ->
  dict_get (py "action") d = None ->
  exists l',
    StructuredChatOutputParser.parse text l =
      (inl (OutputParserException (could_not_parse text)
              (Some (KeyError (py "action")))), l').
Proof.
  intros S J F Ha. rewrite (parse_decoded _ _ _ _ S J).
  cbv [try_except handler parse_response bind ret raise getitem getitem0
       logger_warning].
  destruct response as [| | | | |[|r rs]|d']; cbn [first_record] in F;
    try discriminate F; injection F as F; subst; rewrite Ha; eauto.
Qed.

Lemma X3_lenient_missing_action_raises_witness :
  let block := js "{'action_input': 'weather in Paris'}" in
  let text := fence ++ block ++ fence in
  exists l',
    StructuredChatOutputParser.parse text [] =
      (inl (OutputParserException (could_not_parse text)
              (Some (KeyError (py "action")))), l').
Proof.
  intros block text.
  apply (X3_lenient_missing_action_raises text block
           (VDict [(py "action_input", VStr (py "weather in Paris"))])
           [(py "action_input", VStr (py "weather in Paris"))] []);
    reflexivity.
Defined.

(** X4.  Only one level of sequence is unwrapped and nothing but a record
    is usable.  When the block decodes to an empty sequence, [parse] logs
    the warning and raises with cause [IndexError]; when it decodes to a
    value whose first record is no record at all (a string, a number, a
    constant, or a sequence nested in a sequence), [parse] raises with
    cause [TypeError]. *)
Theorem X4_lenient_refuses_empty_and_non_records
    (text group1 : str) (response : value) (l : list log_record) :
  re_search text = Some group1 ->
  json_loads (strip group1) = inr response ->
  (forall d, first_record response <> Some (VDict d)) ->
  StructuredChatOutputParser.parse text l =
    (inl (OutputParserException (could_not_parse text)
            (Some match first_record response with
                  | None => IndexError
                  | Some _ => TypeError
                  end)),
     match response with
     | VList _ => l ++ [Warning "Got multiple action responses: %s" response]
     | _ => l
     end).
Proof.
  intros S J F. rewrite (parse_decoded _ _ _ _ S J).
  cbv [try_except handler parse_response bind ret raise getitem getitem0
       logger_warning].
  destruct response as [| | | | |[|r rs]|d']; cbn [first_record] in *;
    try reflexivity.
  - destruct r; try reflexivity. destruct (F d eq_refl).
  - destruct (F d' eq_refl).
Qed.

Lemma X4_lenient_refuses_empty_and_non_records_witness :
  let text := fence ++ py " [ ] " ++ fence in
  StructuredChatOutputParser.parse text [] =
    (inl (OutputParserException (could_not_parse text) (Some IndexError)),
     [Warning "Got multiple action responses: %s" (VList [])]).
Proof.
  intros text.
  apply (X4_lenient_refuses_empty_and_non_records text (py " [ ] ")
           (VList []) []); [reflexivity | reflexivity | discriminate].
Defined.


(** ** The strict parser, case by case *)

(** X5.  The strict variant on a record: with both keys it returns the
    decision, Finish with [action_input] as output when the action is
    ["Final Answer"] and Action otherwise; with [action] present and
    [action_input] missing it raises, the cause being the
    ["Missing 'action' or 'action_input'"] exception of line 33. *)
Theorem X5_strict_on_a_record
    (parse_json_markdown : str -> M value)
    (text : str) (d : dict) (action : value) (l l' : list log_record) :
  parse_json_markdown text l = (inr (VDict d), l') ->
  dict_get (py "action") d = Some action ->
  ConvoOutputParser.parse parse_json_markdown text l =
    match dict_get (py "action_input") d with
    | Some action_input =>
        (inr (if eq_str action (py "Final Answer")
              then AgentFinish (output_dict action_input) text
              else AgentAction action action_input text), l')
    | None =>
        (inl (OutputParserException (could_not_parse text)
                (Some (missing_keys text))), l')
    end.
Proof.
  intros Hp Ha. unfold ConvoOutputParser.parse, try_except, bind.
  rewrite Hp. cbv [contains ret raise getitem negb]. rewrite Ha.
  destruct (dict_get (py "action_input") d) as [v|]; [|reflexivity].
  destruct (eq_str action (py "Final Answer")); reflexivity.
Qed.

Lemma X5_strict_on_a_record_witness :
  let record := [(py "action", VStr (py "Final Answer"));
                 (py "action_input", VStr (py "Paris"))] in
  let text := py "irrelevant here" in
  ConvoOutputParser.parse (fun _ => ret (VDict record)) text [] =
    (inr (AgentFinish (output_dict (VStr (py "Paris"))) text), []).
Proof.
  intros record text.
  apply (X5_strict_on_a_record (fun _ => ret (VDict record)) text record
           (VStr (py "Final Answer")) [] []); reflexivity.
Defined.

(** X6.  The strict variant returns a decision only for a record with both
    keys: whenever it returns, [parse_json_markdown] returned a record
    that has [action] and [action_input].  A sequence of records, which
    the lenient variant unwraps, is never accepted, nor is any other value
    or a failure of [parse_json_markdown]. *)
Theorem X6_strict_returns_only_for_full_records
    (parse_json_markdown : str -> M value)
    (text : str) (decision0 : decision) (l l' : list log_record) :
  ConvoOutputParser.parse parse_json_markdown text l = (inr decision0, l') ->
  exists d action action_input,
    parse_json_markdown text l = (inr (VDict d), l') /\
    dict_get (py "action") d = Some action /\
    dict_get (py "action_input") d = Some action_input.
Proof.
  intros H. unfold ConvoOutputParser.parse, try_except, bind in H.
  destruct (parse_json_markdown text l) as [[e|response] l1];
    [discriminate H|].
  destruct response; cbv [contains ret raise getitem negb] in H;
    break_run H.
  all: eexists _, _, _; (split; [reflexivity | split; eassumption]).
Qed.

Lemma X6_strict_returns_only_for_full_records_witness :
  let record := [(py "action", VStr (py "Search"));
                 (py "action_input", VStr (py "term"))] in
  exists d action action_input,
    ret (VDict record) [] = (inr (VDict d), @nil log_record) /\
    dict_get (py "action") d = Some action /\
    dict_get (py "action_input") d = Some action_input.
Proof.
  intros record.
  apply (X6_strict_returns_only_for_full_records
           (fun _ => ret (VDict record)) (py "t")
           (AgentAction (VStr (py "Search")) (VStr (py "term")) (py "t"))
           [] []).
  reflexivity.
Defined.

(** X7.  The strict variant is a restriction of the lenient one: on a text
    whose block the lenient variant decodes to the value that
    [parse_json_markdown] returns, a decision returned by the strict
    variant is returned by the lenient variant as well, and without a
    warning. *)
Theorem X7_strict_decision_is_lenient_decision
    (parse_json_markdown : str -> M value)
    (text group1 : str) (response : value) (decision0 : decision)
    (l l' l0 : list log_record) :
  parse_json_markdown text l = (inr response, l') ->
  ConvoOutputParser.parse parse_json_markdown text l = (inr decision0, l') ->
  re_search text = Some group1 ->
  json_loads (strip group1) = inr response ->
  StructuredChatOutputParser.parse text l0 = (inr decision0, l0).
Proof.
  intros Hp H S J. rewrite (parse_decoded _ _ _ _ S J). unfold try_except.
  unfold ConvoOutputParser.parse, try_except, bind in H. rewrite Hp in H.
  destruct response; cbv [contains ret raise getitem negb] in H;
    break_run H;
    match goal with
    | Ha : dict_get (py "action") ?d = Some _,
      Hi : dict_get (py "action_input") ?d = Some _ |- _ =>
        rewrite (parse_response_record _ _ _ _ _ Ha Hi)
    end;
    match goal with
    | E : eq_str _ _ = _ |- _ => rewrite E
    end; congruence.
Qed.

Lemma X7_strict_decision_is_lenient_decision_witness :
  let block := js "{'action': 'Search', 'action_input': 'term'}" in
  let text := fence ++ block ++ fence in
  StructuredChatOutputParser.parse text [] =
    (inr (AgentAction (VStr (py "Search")) (VStr (py "term")) text), []).
Proof.
  intros block text.
  apply (X7_strict_decision_is_lenient_decision
           (fun t => lift (json_loads (strip block))) text block
           (VDict [(py "action", VStr (py "Search"));
                   (py "action_input", VStr (py "term"))])
           _ [] [] []); reflexivity.
Defined.


(** ** The retry wrapper as [from_llm] builds it *)

(** X8.  Whatever [from_llm] is given, the wrapper it builds delegates to
    one parser object: the corrector when there is a model (the wrapper's
    own [base_parser] field is then never consulted), the given base parser
    or a new lenient parser otherwise.  A decision of the delegate is
    returned as it is, with the logger as the delegate left it; any
    exception of the delegate, of whatever kind, becomes the cause of an
    [OutputParserException] about the wrapper's input. *)
Theorem X8_from_llm_wrapper_outcome
    (BaseLanguageModel : Type)
    (OutputFixingParser_from_llm :
       BaseLanguageModel -> AgentOutputParser.t -> AgentOutputParser.t)
    (llm : option BaseLanguageModel) (base_parser : option AgentOutputParser.t)
    (text : str) (l : list log_record) :
  let wrapper :=
    RetriesFromLLM.from_llm BaseLanguageModel OutputFixingParser_from_llm
      llm base_parser in
  let delegate :=
    RetriesFromLLM.delegate BaseLanguageModel OutputFixingParser_from_llm
      llm base_parser in
  Retries.parse wrapper text l =
    match AgentOutputParser.parse delegate text l with
    | (inr decision0, l') => (inr decision0, l')
    | (inl e, l') =>
        (inl (OutputParserException (could_not_parse text) (Some e)), l')
    end.
Proof.
  destruct llm as [llm|], base_parser as [b|]; reflexivity.
Qed.

(** ** The in-memory docstore *)

Arguments InMemoryDocstore.lookup {Document} k d.
Arguments InMemoryDocstore.update {Document} k v d.
Arguments InMemoryDocstore.merge {Document} a b.
Arguments InMemoryDocstore._dict {Document} t.
Arguments InMemoryDocstore.Build_t {Document} _.
Arguments InMemoryDocstore.init {Document} d.
Arguments InMemoryDocstore.overlapping {Document} self texts.
Arguments InMemoryDocstore.add {Document} repr_ids self texts.
Arguments InMemoryDocstore.search {Document} self search.

Section DocstoreFacts.

Context {Document : Type}.
Variable repr_ids : list str -> str.

Let items : Type := list (str * Document).

Lemma str_eqb_refl (k : str) : str_eqb k k = true.
Proof. apply str_eqb_eq. reflexivity. Qed.

Lemma lookup_update_same (k : str) (v : Document) (d : items) :
  InMemoryDocstore.lookup k (InMemoryDocstore.update k v d) = Some v.
Proof.
  induction d as [|[k' v'] d IH]; cbn.
  - now rewrite str_eqb_refl.
  - destruct (str_eqb k k') eqn:E; cbn; rewrite E; [reflexivity | exact IH].
Qed.

Lemma lookup_update_other (k k' : str) (v : Document) (d : items) :
  str_eqb k k' = false ->
  InMemoryDocstore.lookup k (InMemoryDocstore.update k' v d) =
  InMemoryDocstore.lookup k d.
Proof.
  intros N. induction d as [|[k2 v2] d IH]; cbn.
  - now rewrite N.
  - destruct (str_eqb k' k2) eqn:E; cbn.
    + apply str_eqb_eq in E. subst k2. now rewrite N.
    + now rewrite IH.
Qed.

Lemma lookup_none_not_key (k : str) (d : items) :
  InMemoryDocstore.lookup k d = None <-> ~ In k (map fst d).
Proof.
  induction d as [|[k' v'] d IH]; cbn.
  - tauto.
  - destruct (str_eqb k k') eqn:E.
    + apply str_eqb_eq in E. subst. split; [discriminate | tauto].
    + apply str_eqb_neq in E. rewrite IH. split; [|tauto].
      intros H [H'|H']; [congruence | tauto].
Qed.

Lemma merge_cons (k : str) (v : Document) (a b : items) :
  InMemoryDocstore.merge a ((k, v) :: b) =
  InMemoryDocstore.merge (InMemoryDocstore.update k v a) b.
Proof. reflexivity. Qed.

Lemma lookup_merge_absent (k : str) (a b : items) :
  InMemoryDocstore.lookup k b = None ->
  InMemoryDocstore.lookup k (InMemoryDocstore.merge a b) =
  InMemoryDocstore.lookup k a.
Proof.
  revert a. induction b as [|[k' v'] b IH]; intros a H; [reflexivity|].
  cbn in H. destruct (str_eqb k k') eqn:E; [discriminate|].
  rewrite merge_cons, (IH _ H). apply lookup_update_other, E.
Qed.

Lemma lookup_merge_present (k : str) (v : Document) (a b : items) :
  NoDup (map fst b) ->
  InMemoryDocstore.lookup k b = Some v ->
  InMemoryDocstore.lookup k (InMemoryDocstore.merge a b) = Some v.
Proof.
  revert a. induction b as [|[k' v'] b IH]; intros a D H; [discriminate|].
  cbn in D, H. inversion D as [|? ? Hn D']; subst. rewrite merge_cons.
  destruct (str_eqb k k') eqn:E.
  - injection H as <-. apply str_eqb_eq in E. subst k'.
    apply lookup_none_not_key in Hn.
    rewrite (lookup_merge_absent k _ b Hn). apply lookup_update_same.
  - apply (IH _ D' H).
Qed.

Lemma overlapping_nil (self : InMemoryDocstore.t Document) (texts : items) :
  InMemoryDocstore.overlapping self texts = [] <->
  forall k, In k (map fst texts) ->
            InMemoryDocstore.lookup k (InMemoryDocstore._dict self) = None.
Proof.
  unfold InMemoryDocstore.overlapping.
  induction (map fst texts) as [|k ks IH]; cbn.
  - split; [intros _ k [] | reflexivity].
  - destruct (InMemoryDocstore.lookup k (InMemoryDocstore._dict self)) eqn:E.
    + split; [discriminate|]. intros H. specialize (H k (or_introl eq_refl)).
      congruence.
    + rewrite IH. split.
      * intros H k' [<-|H']; [exact E | apply (H _ H')].
      * intros H k' H'. apply H. now right.
Qed.

End DocstoreFacts.


Lemma search_after_add
    {Document : Type} (repr_ids : list str -> str)
    (self self' : InMemoryDocstore.t Document)
    (texts : list (str * Document)) :
  NoDup (map fst texts) ->
  InMemoryDocstore.add repr_ids self texts = inr self' ->
  forall k,
    InMemoryDocstore.search self' k =
      match InMemoryDocstore.lookup k texts with
      | Some doc => inr doc
      | None => InMemoryDocstore.search self k
      end.
Proof.
  intros D H k. unfold InMemoryDocstore.add in H.
  destruct (InMemoryDocstore.overlapping self texts); [|discriminate H].
  injection H as <-. unfold InMemoryDocstore.search. cbn.
  destruct (InMemoryDocstore.lookup k texts) as [doc|] eqn:E.
  - now rewrite (lookup_merge_present _ _ _ _ D E).
  - now rewrite (lookup_merge_absent _ _ _ E).
Qed.

(** X9.  Insert and look up.  After a successful [add(texts)], [search]
    returns the document of [texts] for each id of [texts], and for every
    other id exactly what it returned before the call: the stored
    document, or the ["ID ... not found."] message. *)
Theorem X9_docstore_add_then_search
    {Document : Type} (repr_ids : list str -> str)
    (self self' : InMemoryDocstore.t Document)
    (texts : list (str * Document)) :
  NoDup (map fst texts) ->
  InMemoryDocstore.add repr_ids self texts = inr self' ->
  forall k,
    InMemoryDocstore.search self' k =
      match InMemoryDocstore.lookup k texts with
      | Some doc => inr doc
      | None => InMemoryDocstore.search self k
      end.
Proof. apply search_after_add. Qed.

Lemma X9_docstore_add_then_search_witness :
  let store := InMemoryDocstore.init (Some [(py "a", py "Alpha")]) in
  let texts := [(py "b", py "Beta"); (py "c", py "Gamma")] in
  let store' := {| InMemoryDocstore._dict :=
                     [(py "a", py "Alpha"); (py "b", py "Beta");
                      (py "c", py "Gamma")] |} in
  InMemoryDocstore.search store' (py "b") = inr (py "Beta") /\
  InMemoryDocstore.search store' (py "a") = inr (py "Alpha") /\
  InMemoryDocstore.search store' (py "z") = inl (py "ID z not found.").
Proof.
  intros store texts store'.
  assert (D : NoDup (map fst texts)).
  { repeat constructor; cbn; intuition discriminate. }
  pose proof (X9_docstore_add_then_search (fun _ => []) store store' texts
                D eq_refl) as H.
  split; [|split].
  - exact (H (py "b")).
  - exact (H (py "a")).
  - exact (H (py "z")).
Defined.

(** X10.  [add] raises exactly when an id of [texts] is already stored,
    and it never overwrites: after a successful [add], every document that
    [search] returned before is still returned. *)
Theorem X10_docstore_add_refuses_overlap
    {Document : Type} (repr_ids : list str -> str)
    (self : InMemoryDocstore.t Document) (texts : list (str * Document)) :
  ((exists msg,
      InMemoryDocstore.add repr_ids self texts = inl (ValueError msg)) <->
   (exists k, In k (map fst texts) /\
              exists doc, InMemoryDocstore.search self k = inr doc)) /\
  (forall self',
     InMemoryDocstore.add repr_ids self texts = inr self' ->
     forall k doc,
       InMemoryDocstore.search self k = inr doc ->
       InMemoryDocstore.search self' k = inr doc).
Proof.
  unfold InMemoryDocstore.add, InMemoryDocstore.search.
  destruct (InMemoryDocstore.overlapping self texts) as [|k0 ks] eqn:O.
  - pose proof (proj1 (overlapping_nil self texts) O) as N. split; [split|].
    + intros [msg H]. discriminate H.
    + intros (k & Hk & doc & H). rewrite (N k Hk) in H. discriminate H.
    + intros self' H. injection H as <-. intros k doc H. cbn.
      destruct (InMemoryDocstore.lookup k (InMemoryDocstore._dict self))
        as [doc'|] eqn:E; [|discriminate H].
      assert (A : InMemoryDocstore.lookup k texts = None).
      { apply lookup_none_not_key. intros Hk. rewrite (N k Hk) in E.
        discriminate E. }
      rewrite (lookup_merge_absent _ _ _ A), E. exact H.
  - split; [split|].
    + intros _.
      assert (Hin : In k0 (InMemoryDocstore.overlapping self texts))
        by (rewrite O; now left).
      unfold InMemoryDocstore.overlapping in Hin.
      apply filter_In in Hin as [Hk Hl]. exists k0. split; [exact Hk|].
      destruct (InMemoryDocstore.lookup k0 (InMemoryDocstore._dict self))
        as [doc|]; [eauto | discriminate Hl].
    + intros _. eauto.
    + intros self' H. discriminate H.
Qed.

Lemma X10_docstore_add_refuses_overlap_witness :
  let store := InMemoryDocstore.init (Some [(py "a", py "Alpha")]) in
  let texts := [(py "b", py "Beta"); (py "a", py "Other")] in
  exists msg,
    InMemoryDocstore.add (fun ids => List.concat ids) store texts =
      inl (ValueError msg).
Proof.
  intros store texts.
  apply (proj1 (X10_docstore_add_refuses_overlap
                  (fun ids => List.concat ids) store texts)).
  exists (py "a"). split; [cbn; tauto|]. exists (py "Alpha"). reflexivity.
Defined.

(** X11.  Two successive calls of [add] that both succeed leave the
    docstore that the single call with the items of both, in that order,
    leaves. *)
Theorem X11_docstore_adds_compose
    {Document : Type} (repr_ids : list str -> str)
    (self self1 self2 : InMemoryDocstore.t Document)
    (a b : list (str * Document)) :
  InMemoryDocstore.add repr_ids self a = inr self1 ->
  InMemoryDocstore.add repr_ids self1 b = inr self2 ->
  InMemoryDocstore.add repr_ids self (a ++ b) = inr self2.
Proof.
  unfold InMemoryDocstore.add. intros Ha Hb.
  destruct (InMemoryDocstore.overlapping self a) eqn:Oa; [|discriminate Ha].
  injection Ha as <-.
  destruct (InMemoryDocstore.overlapping _ b) eqn:Ob; [|discriminate Hb].
  injection Hb as <-. cbn [InMemoryDocstore._dict].
  assert (O : InMemoryDocstore.overlapping self (a ++ b) = []).
  { apply overlapping_nil. intros k Hk. rewrite map_app in Hk.
    apply in_app_or in Hk as [Hk|Hk].
    - apply (proj1 (overlapping_nil _ _) Oa k Hk).
    - pose proof (proj1 (overlapping_nil _ _) Ob k Hk) as H. cbn in H.
      destruct (InMemoryDocstore.lookup k a) as [doc|] eqn:E.
      + destruct (InMemoryDocstore.lookup k (InMemoryDocstore._dict self))
          eqn:E'; [|reflexivity].
        exfalso. assert (Hin : In k (map fst a)).
        { destruct (in_dec (list_eq_dec N.eq_dec) k (map fst a)) as [i|n];
            [exact i|]. apply lookup_none_not_key in n. congruence. }
        rewrite (proj1 (overlapping_nil _ _) Oa k Hin) in E'. discriminate E'.
      + now rewrite (lookup_merge_absent _ _ _ E) in H. }
  rewrite O. unfold InMemoryDocstore.merge. now rewrite fold_left_app.
Qed.

Lemma X11_docstore_adds_compose_witness :
  let store := InMemoryDocstore.init (@None (list (str * str))) in
  InMemoryDocstore.add (fun _ => []) store
    ([(py "a", py "Alpha")] ++ [(py "b", py "Beta")]) =
  inr {| InMemoryDocstore._dict := [(py "a", py "Alpha"); (py "b", py "Beta")] |}.
Proof.
  intros store.
  apply (X11_docstore_adds_compose (fun _ => []) store
           {| InMemoryDocstore._dict := [(py "a", py "Alpha")] |});
    reflexivity.
Defined.


(** ** The docstore explorer *)

Lemma join_paragraphs_cons (c : char) (p : str) (ps : list str) :
  join_paragraphs ((c :: p) :: ps) = c :: join_paragraphs (p :: ps).
Proof. destruct ps; reflexivity. Qed.

Lemma split_blank_lines_step (c c' : char) (s : str) :
  split_blank_lines (c :: c' :: s) =
    if (c =? 10) && (c' =? 10)
    then ([], let (p, ps) := split_blank_lines s in p :: ps)
    else let (p, ps) := split_blank_lines (c' :: s) in (c :: p, ps).
Proof. reflexivity. Qed.

Lemma split_join_bounded (n : nat) :
  forall s, (List.length s <= n)%nat ->
    join_paragraphs (split_paragraphs s) = s.
Proof.
  unfold split_paragraphs.
  induction n as [|n IH]; intros s Hn.
  - destruct s; [reflexivity | cbn in Hn; lia].
  - destruct s as [|c [|c' s2]]; [reflexivity | reflexivity |].
    rewrite split_blank_lines_step. cbn [List.length] in Hn.
    destruct ((c =? 10) && (c' =? 10)) eqn:E.
    + apply andb_prop in E as [E1 E2]. apply N.eqb_eq in E1, E2. subst.
      specialize (IH s2 ltac:(lia)).
      destruct (split_blank_lines s2) as [p ps].
      change (join_paragraphs ([] :: p :: ps))
        with ([10; 10] ++ join_paragraphs (p :: ps)).
      now rewrite IH.
    + specialize (IH (c' :: s2) ltac:(cbn [List.length]; lia)).
      destruct (split_blank_lines (c' :: s2)) as [p ps].
      now rewrite join_paragraphs_cons, IH.
Qed.

Lemma split_join (s : str) : join_paragraphs (split_paragraphs s) = s.
Proof. apply (split_join_bounded (List.length s)). lia. Qed.

Lemma split_paragraphs_cons (s : str) :
  exists p ps, split_paragraphs s = p :: ps.
Proof.
  unfold split_paragraphs. destruct (split_blank_lines s) as [p ps]. eauto.
Qed.

Section ExplorerFacts.

Context {Document : Type}.
Variable page_content : Document -> str.
Variable lower : str -> str.

Let explorer : Type := DocstoreExplorer.t Document.

(** One call of [lookup] on an explorer that holds a document. *)
Lemma lookup_step (self : explorer) (doc : Document) (term : str) :
  DocstoreExplorer.document self = Some doc ->
  let index :=
    if str_eqb (lower term) (DocstoreExplorer.lookup_str self)
    then (DocstoreExplorer.lookup_index self + 1)%nat else O in
  DocstoreExplorer.lookup page_content lower self term =
    (inr (answer (matching_paragraphs page_content lower doc term) index),
     {| DocstoreExplorer.docstore := DocstoreExplorer.docstore self;
        DocstoreExplorer.document := Some doc;
        DocstoreExplorer.lookup_str := lower term;
        DocstoreExplorer.lookup_index := index |}).
Proof.
  intros Hd. unfold DocstoreExplorer.lookup. rewrite Hd.
  destruct (str_eqb (lower term) (DocstoreExplorer.lookup_str self)) eqn:E;
    cbn [negb DocstoreExplorer._paragraphs DocstoreExplorer.document
         DocstoreExplorer.lookup_str DocstoreExplorer.lookup_index];
    rewrite ?Hd.
  - apply str_eqb_eq in E. rewrite <- E.
    fold (matching_paragraphs page_content lower doc term).
    set (matches := matching_paragraphs page_content lower doc term).
    set (index := (DocstoreExplorer.lookup_index self + 1)%nat).
    unfold answer. destruct matches as [|m ms] eqn:M; [reflexivity|].
    rewrite <- M.
    destruct (List.length matches <=? index)%nat eqn:L.
    + apply Nat.leb_le in L. apply nth_error_None in L. now rewrite L.
    + apply Nat.leb_gt in L. apply nth_error_Some in L.
      destruct (nth_error matches index); [reflexivity | contradiction].
  - fold (matching_paragraphs page_content lower doc term).
    set (matches := matching_paragraphs page_content lower doc term).
    unfold answer. destruct matches as [|m ms] eqn:M; reflexivity.
Qed.

End ExplorerFacts.


(** X12.  The paragraphs of the explorer partition the page: with a
    document at hand, [_paragraphs] returns at least one paragraph, the
    paragraphs joined by blank lines are the page content again, and
    [_summary] returns the first of them, so that its index 0 is never out
    of range.  Without a document both raise the [ValueError]. *)
Theorem X12_explorer_paragraphs_partition_the_page
    {Document : Type} (page_content : Document -> str)
    (self : DocstoreExplorer.t Document) :
  match DocstoreExplorer.document self with
  | Some doc =>
      exists p ps,
        DocstoreExplorer._paragraphs page_content self = inr (p :: ps) /\
        DocstoreExplorer._summary page_content self = inr p /\
        join_paragraphs (p :: ps) = page_content doc
  | None =>
      let e := ValueError (py "Cannot get paragraphs without a document") in
      DocstoreExplorer._paragraphs page_content self = inl e /\
      DocstoreExplorer._summary page_content self = inl e
  end.
Proof.
  unfold DocstoreExplorer._summary, DocstoreExplorer._paragraphs.
  destruct (DocstoreExplorer.document self) as [doc|]; [|split; reflexivity].
  destruct (split_paragraphs_cons (page_content doc)) as (p & ps & E).
  exists p, ps. rewrite E. repeat split. rewrite <- E. apply split_join.
Qed.

(** X13.  [search] never raises and never moves the lookup cursor.  On a
    hit the explorer keeps the document and returns its first paragraph.
    On a miss it returns the message of the docstore and forgets the
    document it had, so that the next [lookup] raises the [ValueError],
    also after an earlier successful search. *)
Theorem X13_explorer_search
    {Document : Type} (page_content : Document -> str) (lower : str -> str)
    (self : DocstoreExplorer.t Document) (term : str) :
  let result := fst (DocstoreExplorer.search page_content self term) in
  let self' := snd (DocstoreExplorer.search page_content self term) in
  DocstoreExplorer.lookup_str self' = DocstoreExplorer.lookup_str self /\
  DocstoreExplorer.lookup_index self' = DocstoreExplorer.lookup_index self /\
  match DocstoreExplorer.docstore self term with
  | inr doc =>
      DocstoreExplorer.document self' = Some doc /\
      exists p ps,
        split_paragraphs (page_content doc) = p :: ps /\ result = inr p
  | inl message =>
      result = inr message /\
      DocstoreExplorer.document self' = None /\
      forall term',
        DocstoreExplorer.lookup page_content lower self' term' =
          (inl (ValueError
                  (py "Cannot lookup without a successful search first")),
           self')
  end.
Proof.
  unfold DocstoreExplorer.search.
  destruct (DocstoreExplorer.docstore self term) as [message|doc];
    cbn [fst snd]; repeat split.
  destruct (split_paragraphs_cons (page_content doc)) as (p & ps & E).
  exists p, ps. split; [exact E|].
  unfold DocstoreExplorer._summary, DocstoreExplorer._paragraphs.
  cbn [DocstoreExplorer.document]. now rewrite E.
Qed.

(** X14.  Paging.  With a document at hand and a term other than the one
    under the cursor, the successive calls of [lookup(term)] go through
    the matching paragraphs in order: call number [k+1] returns
    ["(Result k+1/n) "] followed by the matching paragraph of index [k]
    while [k < n], and ["No More Results"] from then on; without any match
    every call returns ["No Results"].  No call raises. *)
Theorem X14_explorer_lookup_pages_through_matches
    {Document : Type} (page_content : Document -> str) (lower : str -> str)
    (self : DocstoreExplorer.t Document) (doc : Document) (term : str) :
  DocstoreExplorer.document self = Some doc ->
  lower term <> DocstoreExplorer.lookup_str self ->
  forall k,
    fst (DocstoreExplorer.lookup page_content lower
           (lookups page_content lower self term k) term) =
    inr (answer (matching_paragraphs page_content lower doc term) k).
Proof.
  intros Hd Hfresh.
  assert (Inv : forall k,
    DocstoreExplorer.lookup page_content lower
      (lookups page_content lower self term k) term =
    (inr (answer (matching_paragraphs page_content lower doc term) k),
     {| DocstoreExplorer.docstore := DocstoreExplorer.docstore self;
        DocstoreExplorer.document := Some doc;
        DocstoreExplorer.lookup_str := lower term;
        DocstoreExplorer.lookup_index := k |})).
  { induction k as [|k IH].
    - cbn [lookups]. rewrite (lookup_step page_content lower self doc term Hd).
      apply str_eqb_neq in Hfresh. rewrite Hfresh. reflexivity.
    - cbn [lookups]. rewrite IH. cbn [snd].
      erewrite lookup_step by reflexivity.
      cbn [DocstoreExplorer.lookup_str DocstoreExplorer.lookup_index
           DocstoreExplorer.docstore].
      rewrite str_eqb_refl. replace (k + 1)%nat with (S k) by lia.
      reflexivity. }
  intros k. now rewrite Inv.
Qed.

(** X15.  [search] does not reset the cursor.  When a search succeeds and
    the term looked up next is, in lower case, the one already under the
    cursor, the lookup goes on from the old position in the new document:
    it answers for position [lookup_index + 1].  On a new explorer the
    cursor holds the empty string at position 0, so a first lookup of the
    empty string skips the first paragraph. *)
Theorem X15_explorer_cursor_survives_search
    {Document : Type} (page_content : Document -> str) (lower : str -> str)
    (self : DocstoreExplorer.t Document) (doc : Document) (term term' : str) :
  DocstoreExplorer.docstore self term = inr doc ->
  lower term' = DocstoreExplorer.lookup_str self ->
  fst (DocstoreExplorer.lookup page_content lower
         (snd (DocstoreExplorer.search page_content self term)) term') =
  inr (answer (matching_paragraphs page_content lower doc term')
         (DocstoreExplorer.lookup_index self + 1)).
Proof.
  intros Hs Hc. unfold DocstoreExplorer.search. rewrite Hs. cbn [snd].
  erewrite lookup_step by reflexivity.
  cbn [DocstoreExplorer.lookup_str DocstoreExplorer.lookup_index].
  rewrite Hc, str_eqb_refl. reflexivity.
Qed.


Lemma X14_explorer_lookup_pages_through_matches_witness :
  let docstore := fun _ : str => @inr str str paris_page in
  let self := snd (DocstoreExplorer.search (fun d => d)
                     (DocstoreExplorer.init docstore) (py "Paris")) in
  fst (DocstoreExplorer.lookup (fun d => d) ascii_lower
         (lookups (fun d => d) ascii_lower self (py "Paris") 1) (py "Paris")) =
    inr (py "(Result 2/2) The tower of PARIS.") /\
  fst (DocstoreExplorer.lookup (fun d => d) ascii_lower
         (lookups (fun d => d) ascii_lower self (py "Paris") 2) (py "Paris")) =
    inr (py "No More Results").
Proof.
  intros docstore self.
  assert (Hfresh : ascii_lower (py "Paris") <> DocstoreExplorer.lookup_str self)
    by discriminate.
  pose proof (X14_explorer_lookup_pages_through_matches (fun d => d)
                ascii_lower self paris_page (py "Paris") eq_refl Hfresh) as H.
  split; [exact (H 1%nat) | exact (H 2%nat)].
Defined.

Lemma X15_explorer_cursor_survives_search_witness :
  let docstore := fun _ : str => @inr str str paris_page in
  let self := DocstoreExplorer.init docstore in
  fst (DocstoreExplorer.lookup (fun d => d) ascii_lower
         (snd (DocstoreExplorer.search (fun d => d) self (py "Paris"))) []) =
    inr (py "(Result 2/3) It is in France.").
Proof.
  intros docstore self.
  exact (X15_explorer_cursor_survives_search (fun d => d) ascii_lower self
           paris_page (py "Paris") [] eq_refl eq_refl).
Defined.

(** X16.  The explorer on an in-memory docstore, as [ReActChain] wires
    them.  After a successful [add(texts)], searching the explorer for an
    id of [texts] returns the first paragraph of its document and keeps
    the document for [lookup]; searching for an id that is neither in
    [texts] nor was stored before returns ["ID ... not found."], after
    which [lookup] raises. *)
Theorem X16_explorer_on_in_memory_docstore
    {Document : Type} (page_content : Document -> str) (lower : str -> str)
    (repr_ids : list str -> str)
    (store store' : InMemoryDocstore.t Document)
    (texts : list (str * Document)) (id : str) :
  NoDup (map fst texts) ->
  InMemoryDocstore.add repr_ids store texts = inr store' ->
  let explorer := DocstoreExplorer.init (InMemoryDocstore.search store') in
  let result := fst (DocstoreExplorer.search page_content explorer id) in
  let explorer' := snd (DocstoreExplorer.search page_content explorer id) in
  match InMemoryDocstore.lookup id texts with
  | Some doc =>
      DocstoreExplorer.document explorer' = Some doc /\
      exists p ps,
        split_paragraphs (page_content doc) = p :: ps /\ result = inr p
  | None =>
      InMemoryDocstore.lookup id (InMemoryDocstore._dict store) = None ->
      result = inr (py "ID " ++ id ++ py " not found.") /\
      forall term,
        fst (DocstoreExplorer.lookup page_content lower explorer' term) =
          inl (ValueError
                 (py "Cannot lookup without a successful search first"))
  end.
Proof.
  intros D H explorer result explorer'.
  pose proof (search_after_add repr_ids store store' texts D H id) as S.
  subst result explorer'. unfold DocstoreExplorer.search.
  cbn [DocstoreExplorer.docstore explorer DocstoreExplorer.init].
  rewrite S. destruct (InMemoryDocstore.lookup id texts) as [doc|].
  - cbn [fst snd DocstoreExplorer.document]. split; [reflexivity|].
    destruct (split_paragraphs_cons (page_content doc)) as (p & ps & E).
    exists p, ps. split; [exact E|].
    unfold DocstoreExplorer._summary, DocstoreExplorer._paragraphs.
    cbn [DocstoreExplorer.document]. now rewrite E.
  - intros N. unfold InMemoryDocstore.search. rewrite N. cbn [fst snd].
    split; reflexivity.
Qed.

Lemma X16_explorer_on_in_memory_docstore_witness :
  let store := InMemoryDocstore.init (@None (list (str * str))) in
  let store' := {| InMemoryDocstore._dict := [(py "Paris", paris_page)] |} in
  let explorer := DocstoreExplorer.init (InMemoryDocstore.search store') in
  DocstoreExplorer.document
    (snd (DocstoreExplorer.search (fun d => d) explorer (py "Paris"))) =
    Some paris_page /\
  exists p ps,
    split_paragraphs paris_page = p :: ps /\
    fst (DocstoreExplorer.search (fun d => d) explorer (py "Paris")) = inr p.
Proof.
  intros store store' explorer.
  assert (D : NoDup (map fst [(py "Paris", paris_page)])).
  { repeat constructor. cbn. tauto. }
  exact (X16_explorer_on_in_memory_docstore (fun d => d) ascii_lower
           (fun _ => []) store store' [(py "Paris", paris_page)] (py "Paris")
           D eq_refl).
Defined.


(** ** The parser of the API requester *)


Lemma startswith_fence_other (c : char) (s : str) (tag : str) :
  (c =? backtick) = false -> startswith (fence ++ tag) (c :: s) = false.
Proof.
  intros H. cbn [fence app startswith]. now rewrite N.eqb_sym, H.
Qed.







Lemma contains_fence_1 (c : char) (s : str) :
  (c =? backtick) = false ->
  str_contains fence (c :: s) = str_contains fence s.
Proof.
  intros H. cbn [str_contains fence startswith]. now rewrite N.eqb_sym, H.
Qed.

Lemma contains_fence_2 (c : char) (s : str) :
  (c =? backtick) = false ->
  str_contains fence (backtick :: c :: s) = str_contains fence s.
Proof.
  intros H. rewrite <- (contains_fence_1 c s H).
  cbn [str_contains fence startswith].
  now rewrite (N.eqb_sym backtick c), H, andb_false_r.
Qed.

Lemma contains_fence_3 (c : char) (s : str) :
  (c =? backtick) = false ->
  str_contains fence (backtick :: backtick :: c :: s) = str_contains fence s.
Proof.
  intros H. rewrite <- (contains_fence_2 c s H).
  cbn [str_contains fence startswith].
  now rewrite (N.eqb_sym backtick c), H, !andb_false_r.
Qed.

Lemma contains_fence_skip (b t : str) :
  no_backtick b = true -> str_contains fence (b ++ t) = str_contains fence t.
Proof.
  induction b as [|c b IH]; intros Hb; [reflexivity|].
  simpl in Hb. apply andb_prop in Hb as [Hc Hb]. apply negb_true_iff in Hc.
  rewrite <- app_comm_cons, (contains_fence_1 _ _ Hc). apply (IH Hb).
Qed.

Lemma contains_fence_two_backticks (post : str) :
  no_backtick post = true -> str_contains fence (fence2 ++ post) = false.
Proof.
  destruct post as [|c post]; intros Hp; [reflexivity|].
  simpl in Hp. apply andb_prop in Hp as [Hc Hp]. apply negb_true_iff in Hc.
  change (fence2 ++ c :: post) with (backtick :: backtick :: c :: post).
  rewrite (contains_fence_3 _ _ Hc).
  rewrite <- (app_nil_r post). now rewrite (contains_fence_skip _ _ Hp).
Qed.

Lemma lazy_until_fence_none (s : str) :
  str_contains fence s = false -> lazy_until fence s = None.
Proof.
  induction s as [|c s IH]; intros H; [reflexivity|].
  cbn [str_contains] in H. apply orb_false_iff in H as [H1 H2].
  cbn [lazy_until]. now rewrite H1, (IH H2).
Qed.

Lemma startswith_fence_tag (tag s : str) :
  startswith fence s = false -> startswith (fence ++ tag) s = false.
Proof.
  destruct s as [|a [|b [|c s]]]; cbn [fence app startswith]; intros H;
    rewrite ?andb_false_r in *; try reflexivity.
  rewrite andb_true_r in H.
  destruct (backtick =? a), (backtick =? b), (backtick =? c);
    try reflexivity; discriminate H.
Qed.

Lemma search_block_none (tag s : str) :
  str_contains fence s = false -> search_block (fence ++ tag) s = None.
Proof.
  induction s as [|c s IH]; intros H.
  - cbn [search_block]. unfold match_block_here.
    now rewrite (startswith_fence_tag tag [] eq_refl).
  - cbn [str_contains] in H. apply orb_false_iff in H as [H1 H2].
    cbn [search_block]. unfold match_block_here.
    now rewrite (startswith_fence_tag tag _ H1), (IH H2).
Qed.

(** With a closing fence of two backticks, and no other backtick around,
    no block of either kind is found. *)
Lemma search_block_two_backtick_close (tag pre body post : str) :
  tag = py "json" \/ tag = py "text" ->
  no_backtick pre = true -> no_backtick body = true ->
  no_backtick post = true ->
  search_block (fence ++ tag)
    (pre ++ fence ++ py "json" ++ body ++ fence2 ++ post) = None.
Proof.
  intros Ht Hp Hb Ho.
  assert (C : str_contains fence (body ++ fence2 ++ post) = false).
  { rewrite (contains_fence_skip _ _ Hb).
    apply (contains_fence_two_backticks _ Ho). }
  induction pre as [|c pre IH].
  - cbn [app].
    change (fence ++ py "json" ++ body ++ fence2 ++ post)
      with (backtick :: fence2 ++ py "json" ++ body ++ fence2 ++ post).
    cbn [search_block].
    assert (T : search_block (fence ++ tag)
                  (fence2 ++ py "json" ++ body ++ fence2 ++ post) = None).
    { apply search_block_none.
      change (fence2 ++ py "json" ++ body ++ fence2 ++ post)
        with (backtick :: backtick :: ch "j" :: py "son" ++
              body ++ fence2 ++ post).
      rewrite contains_fence_3 by reflexivity.
      change (py "son" ++ body ++ fence2 ++ post)
        with (ch "s" :: ch "o" :: ch "n" :: body ++ fence2 ++ post).
      rewrite !contains_fence_1 by reflexivity. exact C. }
    rewrite T. unfold match_block_here.
    destruct Ht as [-> | ->].
    + change (startswith (fence ++ py "json")
                (backtick :: fence2 ++ py "json" ++ body ++ fence2 ++ post))
        with true.
      cbv iota.
      change (skipn (List.length (fence ++ py "json"))
                (backtick :: fence2 ++ py "json" ++ body ++ fence2 ++ post))
        with (body ++ fence2 ++ post).
      now rewrite (lazy_until_fence_none _ C).
    + reflexivity.
  - simpl in Hp. apply andb_prop in Hp as [Hc Hp].
    apply negb_true_iff in Hc. rewrite <- app_comm_cons.
    cbn [search_block]. unfold match_block_here at 1.
    rewrite (startswith_fence_other c _ tag Hc). exact (IH Hp).
Qed.




(** X19.  Here the closing fence needs its three backticks.  An output
    made of a fence tagged [json], a body and only two backticks, with no
    other backtick, holds no block for the API requester, which answers
    ["ERROR making request"]; the search of the structured chat parser
    does match the same output, with the tag and the body as group 1. *)
Theorem X19_requester_needs_complete_closing_fence
    (json_dumps : value -> str) (pre body post : str) :
  no_backtick pre = true -> no_backtick body = true ->
  no_backtick post = true ->
  let llm_output := pre ++ fence ++ py "json" ++ body ++ fence2 ++ post in
  APIRequesterOutputParser.parse json_dumps llm_output =
    inr (py "ERROR making request") /\
  re_search llm_output = Some (py "json" ++ body).
Proof.
  intros Hp Hb Ho llm_output. split.
  - unfold APIRequesterOutputParser.parse. subst llm_output.
    rewrite (search_block_two_backtick_close (py "json") pre body post
               (or_introl eq_refl) Hp Hb Ho).
    now rewrite (search_block_two_backtick_close (py "text") pre body post
                   (or_intror eq_refl) Hp Hb Ho).
  - subst llm_output.
    change (pre ++ fence ++ py "json" ++ body ++ fence2 ++ post)
      with (pre ++ fence ++ (py "json" ++ body) ++ fence2 ++ post).
    apply re_search_fenced; [exact Hp | exact Hb].
Qed.

Lemma X19_requester_needs_complete_closing_fence_witness :
  let llm_output := py "Here: " ++ fence ++ py "json" ++ js "{'id': 7}" ++ fence2 in
  APIRequesterOutputParser.parse (fun _ => py "<dump>") llm_output =
    inr (py "ERROR making request") /\
  re_search llm_output = Some (py "json" ++ js "{'id': 7}").
Proof.
  intros llm_output.
  exact (X19_requester_needs_complete_closing_fence (fun _ => py "<dump>")
           (py "Here: ") (js "{'id': 7}") [] eq_refl eq_refl eq_refl).
Defined.


(** ** The tools of the ReAct agents *)

Lemma str_eqb_sym (a b : str) : str_eqb a b = str_eqb b a.
Proof.
  destruct (str_eqb a b) eqn:E; symmetry.
  - apply str_eqb_eq in E. subst. apply str_eqb_refl.
  - apply str_eqb_neq in E. apply str_eqb_neq. congruence.
Qed.

Lemma set_eqb_lookup_search (a b : str) :
  ReActAgents.set_eqb [a; b] [py "Lookup"; py "Search"] = true <->
  (a = py "Lookup" /\ b = py "Search") \/
  (a = py "Search" /\ b = py "Lookup").
Proof.
  unfold ReActAgents.set_eqb. cbn [forallb existsb].
  rewrite (str_eqb_sym (py "Lookup") a), (str_eqb_sym (py "Lookup") b),
    (str_eqb_sym (py "Search") a), (str_eqb_sym (py "Search") b).
  destruct (str_eqb a (py "Lookup")) eqn:E1;
    destruct (str_eqb a (py "Search")) eqn:E2;
    destruct (str_eqb b (py "Lookup")) eqn:E3;
    destruct (str_eqb b (py "Search")) eqn:E4;
    cbn [andb orb];
    repeat match goal with
    | H : str_eqb _ _ = true |- _ => apply str_eqb_eq in H
    | H : str_eqb _ _ = false |- _ => apply str_eqb_neq in H
    end;
    split; intros H;
    try discriminate H; try reflexivity;
    try (subst; discriminate);
    try (destruct H as [[? ?]|[? ?]]; congruence);
    tauto.
Qed.

(** X20.  The docstore agent accepts a list of tools exactly when the two
    outer validations accept it and it consists of two tools named
    [Lookup] and [Search], in either order; two tools of the same name, or
    any other number of tools, are refused. *)
Theorem X20_docstore_agent_accepts_lookup_and_search
    (BaseTool : Type) (name : BaseTool -> str)
    (validate_tools_single_input Agent_validate_tools :
       str -> list BaseTool -> exception + unit)
    (repr_tools : list BaseTool -> str) (repr_names : list str -> str)
    (cls : str) (tools : list BaseTool) :
  ReActAgents.ReActDocstoreAgent_validate_tools BaseTool name
    validate_tools_single_input Agent_validate_tools repr_tools repr_names
    cls tools = inr tt <->
  validate_tools_single_input cls tools = inr tt /\
  Agent_validate_tools cls tools = inr tt /\
  (map name tools = [py "Lookup"; py "Search"] \/
   map name tools = [py "Search"; py "Lookup"]).
Proof.
  unfold ReActAgents.ReActDocstoreAgent_validate_tools.
  destruct (validate_tools_single_input cls tools) as [e|[]];
    [split; [discriminate | intros [H _]; discriminate H]|].
  destruct (Agent_validate_tools cls tools) as [e|[]];
    [split; [discriminate | intros (_ & H & _); discriminate H]|].
  destruct tools as [|t1 [|t2 [|t3 tools]]]; cbn [List.length Nat.eqb negb map];
    try (split; [discriminate | intros (_ & _ & [H|H]); discriminate H]).
  pose proof (set_eqb_lookup_search (name t1) (name t2)) as S.
  destruct (ReActAgents.set_eqb [name t1; name t2] [py "Lookup"; py "Search"]);
    cbn [negb].
  - split; [intros _|reflexivity]. repeat split.
    destruct (proj1 S eq_refl) as [[-> ->]|[-> ->]]; tauto.
  - split; [discriminate|]. intros (_ & _ & H).
    assert (false = true); [|discriminate]. apply S.
    destruct H as [H|H]; injection H as -> ->; tauto.
Qed.

(** X21.  The TextWorld agent accepts no list of tools.  Its validation
    first runs that of the docstore agent, which wants exactly two tools,
    and then wants exactly one: whatever the tools and whatever the outer
    validations do, [ReActTextWorldAgent._validate_tools] raises. *)
Theorem X21_textworld_agent_accepts_no_tools
    (BaseTool : Type) (name : BaseTool -> str)
    (validate_tools_single_input Agent_validate_tools :
       str -> list BaseTool -> exception + unit)
    (repr_tools : list BaseTool -> str) (repr_names : list str -> str)
    (cls : str) (tools : list BaseTool) :
  exists e,
    ReActAgents.ReActTextWorldAgent_validate_tools BaseTool name
      validate_tools_single_input Agent_validate_tools repr_tools repr_names
      cls tools = inl e.
Proof.
  unfold ReActAgents.ReActTextWorldAgent_validate_tools,
    ReActAgents.ReActDocstoreAgent_validate_tools.
  destruct (validate_tools_single_input cls tools) as [e|[]]; [eauto|].
  destruct (Agent_validate_tools cls tools) as [e|[]]; [eauto|].
  destruct tools as [|t1 [|t2 [|t3 tools]]]; cbn [List.length Nat.eqb negb];
    eauto.
  destruct (negb (ReActAgents.set_eqb (map name [t1; t2])
                    [py "Lookup"; py "Search"])); eauto.
Qed.

(** ** The prompt selector *)

(** X22.  [get_prompt] answers with the prompt of the first conditional
    whose condition holds for the model, whatever the later conditionals
    say, and with the default prompt when no condition holds. *)
Theorem X22_selector_first_match_wins
    (BaseLanguageModel BasePromptTemplate : Type)
    (self : ConditionalPromptSelector.t BaseLanguageModel BasePromptTemplate)
    (llm : BaseLanguageModel) :
  (forall before condition prompt after,
     ConditionalPromptSelector.conditionals _ _ self =
       before ++ (condition, prompt) :: after ->
     (forall c p, In (c, p) before -> c llm = false) ->
     condition llm = true ->
     ConditionalPromptSelector.get_prompt _ _ self llm = prompt) /\
  ((forall c p,
      In (c, p) (ConditionalPromptSelector.conditionals _ _ self) ->
      c llm = false) ->
   ConditionalPromptSelector.get_prompt _ _ self llm =
     ConditionalPromptSelector.default_prompt _ _ self).
Proof.
  unfold ConditionalPromptSelector.get_prompt.
  generalize (ConditionalPromptSelector.default_prompt _ _ self) as default.
  generalize (ConditionalPromptSelector.conditionals _ _ self) as cs.
  intros cs default. split.
  - intros before condition prompt after -> Hb Hc.
    induction before as [|[c p] before IH]; cbn [app ConditionalPromptSelector.next_prompt].
    + now rewrite Hc.
    + rewrite (Hb c p (or_introl eq_refl)). apply IH.
      intros c' p' H. apply (Hb c' p'). now right.
  - induction cs as [|[c p] cs IH]; intros H;
      cbn [ConditionalPromptSelector.next_prompt]; [reflexivity|].
    rewrite (H c p (or_introl eq_refl)). apply IH.
    intros c' p' H'. apply (H c' p'). now right.
Qed.

Lemma X22_selector_first_match_wins_witness :
  let self :=
    {| ConditionalPromptSelector.default_prompt := py "default";
       ConditionalPromptSelector.conditionals :=
         [(fun llm : bool => negb llm, py "for completion models");
          (fun llm : bool => llm, py "for chat models");
          (fun _ : bool => true, py "never reached")] |} in
  ConditionalPromptSelector.get_prompt _ _ self true = py "for chat models".
Proof.
  intros self.
  apply (proj1 (X22_selector_first_match_wins bool str self true)
           [(fun llm : bool => negb llm, py "for completion models")]
           (fun llm : bool => llm) (py "for chat models")
           [(fun _ : bool => true, py "never reached")] eq_refl);
    [|reflexivity].
  intros c p [H|[]]. injection H as <- _. reflexivity.
Defined.


(** ** The MosaicML embeddings *)

Section MosaicFacts.

Variable lower : str -> str.
Variable format : value -> str.
Variable post : nat -> MosaicMLInstructorEmbeddings.reply.

Let embed := MosaicMLInstructorEmbeddings._embed lower format post.
Let body := MosaicMLInstructorEmbeddings.embed_body lower format post.

Lemma outputs_length (items : list value) (vs : list value) :
  MosaicMLInstructorEmbeddings.outputs items = inr vs ->
  List.length vs = List.length items.
Proof.
  revert vs. induction items as [|item items IH]; intros vs H;
    cbn [MosaicMLInstructorEmbeddings.outputs] in H.
  - injection H as <-. reflexivity.
  - destruct (MosaicMLInstructorEmbeddings.subscript item (py "output"));
      [discriminate H|].
    destruct (MosaicMLInstructorEmbeddings.outputs items) as [e|vs'];
      [discriminate H|].
    injection H as <-. cbn. now rewrite (IH vs' eq_refl).
Qed.

Lemma embeddings_of_nonempty (parsed_response v : value) :
  MosaicMLInstructorEmbeddings.embeddings_of format parsed_response = inr v ->
  exists x xs, v = VList (x :: xs).
Proof.
  unfold MosaicMLInstructorEmbeddings.embeddings_of. intros H.
  destruct parsed_response as [| | | | |items|d]; try discriminate H.
  - destruct items as [|first_item items]; [discriminate H|].
    destruct first_item as [| | | | |l|fd]; try discriminate H.
    + injection H as <-. eauto.
    + destruct (dict_get (py "output") fd); [|discriminate H].
      destruct (MosaicMLInstructorEmbeddings.outputs (VDict fd :: items))
        as [e|vs] eqn:O; [discriminate H|].
      injection H as <-. apply outputs_length in O.
      destruct vs; [discriminate O | eauto].
  - destruct (match dict_get (py "data") d with
              | Some output_item => inr output_item
              | None => _
              end) as [e|output_item]; [discriminate H|].
    destruct output_item as [| | | | |[|[| | | | |l|d'] rest]|d'];
      try discriminate H; injection H as <-; eauto.
Qed.

Lemma body_retry_events (n : nat) again :
  snd (body true n again) = [MosaicMLInstructorEmbeddings.Posted].
Proof.
  unfold body, MosaicMLInstructorEmbeddings.embed_body.
  destruct (post n) as [printed|[printed|parsed_response] text];
    try reflexivity.
  destruct (MosaicMLInstructorEmbeddings.py_in (py "error") parsed_response)
    as [e|[|]]; reflexivity.
Qed.

Lemma body_retry_nonempty (n : nat) again (v : value) :
  fst (body true n again) = inr v -> exists x xs, v = VList (x :: xs).
Proof.
  unfold body, MosaicMLInstructorEmbeddings.embed_body.
  destruct (post n) as [printed|[printed|parsed_response] text];
    try discriminate.
  destruct (MosaicMLInstructorEmbeddings.py_in (py "error") parsed_response)
    as [e|[|]]; cbn [negb fst]; try discriminate.
  - destruct (MosaicMLInstructorEmbeddings.subscript parsed_response (py "error"));
      discriminate.
  - apply embeddings_of_nonempty.
Qed.

Lemma body_retry_again (n : nat) again again' :
  body true n again = body true n again'.
Proof.
  unfold body, MosaicMLInstructorEmbeddings.embed_body.
  destruct (post n) as [printed|[printed|parsed_response] text]; reflexivity.
Qed.

Lemma body_first_events (n : nat) again :
  (forall m, snd (again m) = [MosaicMLInstructorEmbeddings.Posted]) ->
  snd (body false n again) = [MosaicMLInstructorEmbeddings.Posted] \/
  (snd (body false n again) =
     [MosaicMLInstructorEmbeddings.Posted; MosaicMLInstructorEmbeddings.Slept;
      MosaicMLInstructorEmbeddings.Posted] /\
   fst (body false n again) = fst (again (S n))).
Proof.
  intros A. unfold body, MosaicMLInstructorEmbeddings.embed_body.
  destruct (post n) as [printed|[printed|parsed_response] text];
    try (left; reflexivity).
  destruct (MosaicMLInstructorEmbeddings.py_in (py "error") parsed_response)
    as [e|[|]]; try (left; reflexivity).
  cbn [negb].
  destruct (MosaicMLInstructorEmbeddings.subscript parsed_response
              (py "error")) as [e|error]; [left; reflexivity|].
  destruct (MosaicMLInstructorEmbeddings.value_lower lower error)
    as [e|lowered]; [left; reflexivity|].
  destruct (str_contains (py "rate limit exceeded") lowered);
    [|left; reflexivity].
  right. specialize (A (S n)).
  destruct (again (S n)) as [result events]. cbn [snd fst] in *.
  subst events. split; reflexivity.
Qed.

End MosaicFacts.

(** X23.  Whenever [_embed] returns, it returns a list with at least one
    element, after a retry as well: the response shapes it accepts all end
    in a non-empty list of embeddings. *)
Theorem X23_embed_returns_a_nonempty_list
    (lower : str -> str) (format : value -> str)
    (post : nat -> MosaicMLInstructorEmbeddings.reply)
    (is_retry : bool) (n : nat) (v : value)
    (events : list MosaicMLInstructorEmbeddings.event) :
  MosaicMLInstructorEmbeddings._embed lower format post is_retry n =
    (inr v, events) ->
  exists x xs, v = VList (x :: xs).
Proof.
  unfold MosaicMLInstructorEmbeddings._embed. intros H.
  destruct is_retry.
  - apply (f_equal fst) in H. cbn [fst] in H.
    exact (body_retry_nonempty _ _ _ _ _ _ H).
  - unfold MosaicMLInstructorEmbeddings.embed_body at 1 in H.
    destruct (post n) as [printed|[printed|parsed_response] text];
      try discriminate H.
    destruct (MosaicMLInstructorEmbeddings.py_in (py "error") parsed_response)
      as [e|[|]]; try discriminate H.
    + cbn [negb] in H.
      destruct (MosaicMLInstructorEmbeddings.subscript parsed_response
                  (py "error")) as [e|error]; [discriminate H|].
      destruct (MosaicMLInstructorEmbeddings.value_lower lower error)
        as [e|lowered]; [discriminate H|].
      destruct (str_contains (py "rate limit exceeded") lowered);
        [|discriminate H].
      destruct (MosaicMLInstructorEmbeddings.embed_body lower format post
                  true (S n) _) as [result events'] eqn:E.
      injection H as -> _.
      apply (f_equal fst) in E. cbn [fst] in E.
      exact (body_retry_nonempty _ _ _ _ _ _ E).
    + injection H as H _. apply (embeddings_of_nonempty format _ _ H).
Qed.

Lemma X23_embed_returns_a_nonempty_list_witness :
  MosaicMLInstructorEmbeddings._embed ascii_lower (fun _ => [])
    (fun _ => MosaicMLInstructorEmbeddings.Response
                (inr (VDict [(py "data", VList [VInt 1; VInt 2])])) [])
    false 0 =
    (inr (VList [VList [VInt 1; VInt 2]]),
     [MosaicMLInstructorEmbeddings.Posted]) /\
  exists x xs, VList [VList [VInt 1; VInt 2]] = VList (x :: xs).
Proof.
  split; [reflexivity|].
  apply (X23_embed_returns_a_nonempty_list ascii_lower (fun _ => [])
           (fun _ => MosaicMLInstructorEmbeddings.Response
                       (inr (VDict [(py "data", VList [VInt 1; VInt 2])])) [])
           false 0 _ [MosaicMLInstructorEmbeddings.Posted]).
  reflexivity.
Defined.

(** X24.  [_embed] retries at most once.  A call with [is_retry=True]
    sends one request and never sleeps.  A first call either sends one
    request, or sends one, sleeps once and sends a second one, in which
    case it returns or raises what the call with [is_retry=True] does on
    the second reply: a second rate-limit error is raised, not retried. *)
Theorem X24_embed_retries_at_most_once
    (lower : str -> str) (format : value -> str)
    (post : nat -> MosaicMLInstructorEmbeddings.reply) (n : nat) :
  snd (MosaicMLInstructorEmbeddings._embed lower format post true n) =
    [MosaicMLInstructorEmbeddings.Posted] /\
  (snd (MosaicMLInstructorEmbeddings._embed lower format post false n) =
     [MosaicMLInstructorEmbeddings.Posted] \/
   (snd (MosaicMLInstructorEmbeddings._embed lower format post false n) =
      [MosaicMLInstructorEmbeddings.Posted; MosaicMLInstructorEmbeddings.Slept;
       MosaicMLInstructorEmbeddings.Posted] /\
    fst (MosaicMLInstructorEmbeddings._embed lower format post false n) =
    fst (MosaicMLInstructorEmbeddings._embed lower format post true (S n)))).
Proof.
  unfold MosaicMLInstructorEmbeddings._embed. split.
  - apply body_retry_events.
  - rewrite (body_retry_again lower format post (S n) _
               (fun _ => (inl (Exn TypeError), []))).
    apply (body_first_events lower format post n
             (fun m => MosaicMLInstructorEmbeddings.embed_body lower format
                         post true m (fun _ => (inl (Exn TypeError), [])))).
    intros m. apply body_retry_events.
Qed.

(** X25.  An empty list where the embeddings are expected is not reported
    as a [ValueError]: when the response is the empty list, or a record
    without [error] whose [data] (or, without [data], whose [output]) is
    the empty list, [_embed] raises the [IndexError] of the subscript
    [[0]], after the one request. *)
Theorem X25_embed_empty_list_raises_index_error
    (lower : str -> str) (format : value -> str)
    (post : nat -> MosaicMLInstructorEmbeddings.reply)
    (is_retry : bool) (n : nat) (parsed_response : value) (text : str) :
  post n = MosaicMLInstructorEmbeddings.Response (inr parsed_response) text ->
  parsed_response = VList [] \/
  (exists d, parsed_response = VDict d /\
             dict_get (py "error") d = None /\
             (dict_get (py "data") d = Some (VList []) \/
              dict_get (py "data") d = None /\
              dict_get (py "output") d = Some (VList []))) ->
  MosaicMLInstructorEmbeddings._embed lower format post is_retry n =
    (inl (Exn IndexError), [MosaicMLInstructorEmbeddings.Posted]).
Proof.
  intros P S. unfold MosaicMLInstructorEmbeddings._embed,
    MosaicMLInstructorEmbeddings.embed_body. rewrite P.
  destruct S as [->|(d & -> & E & [D|[D O]])].
  - reflexivity.
  - cbn [MosaicMLInstructorEmbeddings.py_in
         MosaicMLInstructorEmbeddings.embeddings_of].
    rewrite E, D. reflexivity.
  - cbn [MosaicMLInstructorEmbeddings.py_in
         MosaicMLInstructorEmbeddings.embeddings_of].
    rewrite E, D, O. reflexivity.
Qed.

Lemma X25_embed_empty_list_raises_index_error_witness :
  MosaicMLInstructorEmbeddings._embed ascii_lower (fun _ => [])
    (fun _ => MosaicMLInstructorEmbeddings.Response
                (inr (VDict [(py "output", VList [])])) [])
    false 0 =
    (inl (Exn IndexError), [MosaicMLInstructorEmbeddings.Posted]).
Proof.
  apply (X25_embed_empty_list_raises_index_error ascii_lower (fun _ => [])
           _ false 0 (VDict [(py "output", VList [])]) []).
  - reflexivity.
  - right. exists [(py "output", VList [])].
    split; [reflexivity|]. split; [reflexivity|].
    right. split; reflexivity.
Defined.

Lemma outputs_missing (before after : list value) (d : dict) :
  Forall (fun item => exists d' v,
            item = VDict d' /\ dict_get (py "output") d' = Some v) before ->
  dict_get (py "output") d = None ->
  MosaicMLInstructorEmbeddings.outputs (before ++ VDict d :: after) =
    inl (KeyError (py "output")).
Proof.
  intros B D. induction B as [|item before (d' & v & -> & O) B IH].
  - cbn [app MosaicMLInstructorEmbeddings.outputs
         MosaicMLInstructorEmbeddings.subscript]. now rewrite D.
  - cbn [app MosaicMLInstructorEmbeddings.outputs
         MosaicMLInstructorEmbeddings.subscript]. now rewrite O, IH.
Qed.

(** X26.  In a response that is a list of records, only the first record
    is tested for [output].  When the first one has it and a later one has
    not, the comprehension [item["output"]] raises [KeyError], where a
    first record without it gives the [ValueError] of the function. *)
Theorem X26_embed_later_record_without_output_raises_key_error
    (lower : str -> str) (format : value -> str)
    (post : nat -> MosaicMLInstructorEmbeddings.reply)
    (is_retry : bool) (n : nat) (text : str)
    (first : dict) (v : value) (between after : list value) (d : dict) :
  post n =
    MosaicMLInstructorEmbeddings.Response
      (inr (VList (VDict first :: between ++ VDict d :: after))) text ->
  MosaicMLInstructorEmbeddings.py_in (py "error")
    (VList (VDict first :: between ++ VDict d :: after)) = inr false ->
  dict_get (py "output") first = Some v ->
  Forall (fun item => exists d' v',
            item = VDict d' /\ dict_get (py "output") d' = Some v') between ->
  dict_get (py "output") d = None ->
  MosaicMLInstructorEmbeddings._embed lower format post is_retry n =
    (inl (Exn (KeyError (py "output"))),
     [MosaicMLInstructorEmbeddings.Posted]).
Proof.
  intros P E F B D.
  unfold MosaicMLInstructorEmbeddings._embed,
    MosaicMLInstructorEmbeddings.embed_body. rewrite P, E.
  cbn [MosaicMLInstructorEmbeddings.embeddings_of]. rewrite F.
  rewrite app_comm_cons.
  rewrite (outputs_missing (VDict first :: between) after d);
    [reflexivity| |assumption].
  constructor; [eauto | assumption].
Qed.

Lemma X26_embed_later_record_without_output_raises_key_error_witness :
  MosaicMLInstructorEmbeddings._embed ascii_lower (fun _ => [])
    (fun _ => MosaicMLInstructorEmbeddings.Response
                (inr (VList [VDict [(py "output", VList [VInt 1])];
                             VDict [(py "text", VNone)]])) [])
    false 0 =
    (inl (Exn (KeyError (py "output"))),
     [MosaicMLInstructorEmbeddings.Posted]).
Proof.
  apply (X26_embed_later_record_without_output_raises_key_error
           ascii_lower (fun _ => []) _ false 0 []
           [(py "output", VList [VInt 1])] (VList [VInt 1]) [] []
           [(py "text", VNone)]).
  - reflexivity.
  - reflexivity.
  - reflexivity.
  - constructor.
  - reflexivity.
Defined.
